(** * Company Agent front-end (src/app.py): session state, request clients
      and the batch QA orchestrator.

    The development embeds the handlers of [app.py] as functions in a small
    state-and-exception monad over the Streamlit session, with the HTTP
    backend as an oracle, and proves the properties of the specification
    about them.

    Conventions of the embedding.
    - Python values that travel through JSON ([response.json()], payloads
      given to [json.dumps], the entries of [st.session_state]) are values
      of the type [json]; [None] is [JNull].  A dict is an association list
      in insertion order.
    - A [str] is the [string] of the bytes of its UTF-8 encoding.
    - [requests.post] and [aiohttp]'s [session.post] either deliver a
      response or raise; what they do is decided by an oracle, so every
      statement is about every possible backend.
    - Calls of the UI layer ([st.error], [st.markdown], ...) are recorded in
      the trace and never raise. *)

From Stdlib Require Import ZArith String Ascii List Bool Lia DecimalString.
From Stdlib Require QArith_base.
From stdpp Require Import base list strings.

Import ListNotations.
Set Warnings "-register-all".
Local Open Scope string_scope.
Local Open Scope Z_scope.
Local Open Scope list_scope.

(** ** Python values *)

Inductive json : Type :=
| JNull
| JBool (b : bool)
| JInt (z : Z)
| JFloat (q : QArith_base.Q)
| JStr (s : string)
| JArr (xs : list json)
| JObj (kvs : list (string * json)).

(** Python truthiness ([if x:], [not x]). *)
Definition truthy (v : json) : bool :=
  match v with
  | JNull => false
  | JBool b => b
  | JInt z => negb (z =? 0)
  | JFloat q => negb (QArith_base.Qnum q =? 0)
  | JStr s => negb (String.eqb s "")
  | JArr xs => match xs with [] => false | _ => true end
  | JObj kvs => match kvs with [] => false | _ => true end
  end.

Definition str_truthy (s : string) : bool := negb (String.eqb s "").

(** Dictionaries: lookup of a key, and [d[k] = v], which overwrites the
    value of an existing key in place and appends a new key at the end. *)
Fixpoint dict_lookup (k : string) (d : list (string * json)) : option json :=
  match d with
  | [] => None
  | (k', v) :: d' => if String.eqb k k' then Some v else dict_lookup k d'
  end.

Fixpoint dict_set (k : string) (v : json) (d : list (string * json))
  : list (string * json) :=
  match d with
  | [] => [(k, v)]
  | (k', v') :: d' =>
      if String.eqb k k' then (k', v) :: d' else (k', v') :: dict_set k v d'
  end.

Definition dict_keys (d : list (string * json)) : list string := map fst d.

(** ** Exceptions and results *)

Record exn : Type := Exn { exn_type : string; exn_str : string }.

Inductive result (A : Type) : Type :=
| Ok (a : A)
| Raise (e : exn).
Arguments Ok {A} a.
Arguments Raise {A} e.

(** The name of the type of a value, as error messages spell it. *)
Definition type_name (v : json) : string :=
  match v with
  | JNull => "NoneType"
  | JBool _ => "bool"
  | JInt _ => "int"
  | JFloat _ => "float"
  | JStr _ => "str"
  | JArr _ => "list"
  | JObj _ => "dict"
  end.

(** The exception of [x.attr] on a value that has no such attribute. *)
Definition AttributeError (x : json) (attr : string) : exn :=
  Exn "AttributeError"
      ("'" +:+ type_name x +:+ "' object has no attribute '" +:+ attr +:+ "'").

(** [x.get(k, dflt)]: only a dict has the method; on any other value the
    attribute lookup raises. *)

Definition py_get (x : json) (k : string) (dflt : json) : result json :=
  match x with
  | JObj d => Ok (default dflt (dict_lookup k d))
  | _ => Raise (AttributeError x "get")
  end.

Definition isinstance_dict (x : json) : bool :=
  match x with JObj _ => true | _ => false end.

(** [str(n)] of an int. *)
Definition str_of_int (z : Z) : string := NilZero.string_of_int (Z.to_int z).

(** ** Strings *)

(** A [str] is kept as the bytes of its UTF-8 encoding.  The white-space
    characters of [str.strip] and [str.isspace] are, in that encoding: the
    one-byte characters tab, line feed, vertical tab, form feed, carriage
    return, the separators 28-31 and space ([isspace]); the two-byte
    characters U+0085 and U+00A0 ([isspace2]); the three-byte characters
    U+1680, U+2000 to U+200A, U+2028, U+2029, U+202F, U+205F and U+3000
    ([isspace3]). *)
Definition isspace (c : ascii) : bool :=
  let n := nat_of_ascii c in
  ((9 <=? n) && (n <=? 13) || (28 <=? n) && (n <=? 31) || (n =? 32))%nat.

Definition isspace2 (c1 c2 : ascii) : bool :=
  let n1 := nat_of_ascii c1 in
  let n2 := nat_of_ascii c2 in
  ((n1 =? 194) && ((n2 =? 133) || (n2 =? 160)))%nat.

Definition isspace3 (c1 c2 c3 : ascii) : bool :=
  let n1 := nat_of_ascii c1 in
  let n2 := nat_of_ascii c2 in
  let n3 := nat_of_ascii c3 in
  ((n1 =? 225) && (n2 =? 154) && (n3 =? 128)
   || (n1 =? 226) && (n2 =? 128)
      && ((128 <=? n3) && (n3 <=? 138)
          || (n3 =? 168) || (n3 =? 169) || (n3 =? 175))
   || (n1 =? 226) && (n2 =? 129) && (n3 =? 159)
   || (n1 =? 227) && (n2 =? 128) && (n3 =? 128))%nat.

(** What follows the first character when it is white space. *)
Definition space_prefix (s : string) : option string :=
  match s with
  | EmptyString => None
  | String c1 r1 =>
      if isspace c1 then Some r1
      else match r1 with
           | EmptyString => None
           | String c2 r2 =>
               if isspace2 c1 c2 then Some r2
               else match r2 with
                    | EmptyString => None
                    | String c3 r3 =>
                        if isspace3 c1 c2 c3 then Some r3 else None
                    end
           end
  end.

(** [s.lstrip()]: the leading white-space characters are dropped. *)
Fixpoint lstrip (s : string) : string :=
  match s with
  | EmptyString => EmptyString
  | String c1 r1 =>
      if isspace c1 then lstrip r1
      else match r1 with
           | EmptyString => s
           | String c2 r2 =>
               if isspace2 c1 c2 then lstrip r2
               else match r2 with
                    | EmptyString => s
                    | String c3 r3 =>
                        if isspace3 c1 c2 c3 then lstrip r3 else s
                    end
           end
  end.

(** A string of white-space characters only. *)
Definition blank (s : string) : bool :=
  match lstrip s with EmptyString => true | String _ _ => false end.

(** [s.rstrip()]: the string is cut where what remains is white space only.
    (No white-space character starts with a continuation byte of UTF-8, so
    the cut falls between two characters.) *)
Fixpoint rstrip (s : string) : string :=
  match s with
  | EmptyString => EmptyString
  | String c r => if blank s then EmptyString else String c (rstrip r)
  end.

(** [s.strip()] *)
Definition strip (s : string) : string := lstrip (rstrip s).

(** [s.split(sep)] for a one-character separator. *)
Fixpoint split (sep : ascii) (s : string) : list string :=
  match s with
  | EmptyString => [EmptyString]
  | String c r =>
      if Ascii.eqb c sep then EmptyString :: split sep r
      else match split sep r with
           | h :: t => String c h :: t
           | [] => [String c EmptyString]
           end
  end.

Definition newline : ascii := ascii_of_nat 10.

(** ** HTTP *)

(** A header value: a literal, or the f-string [f"Bearer {token}"] of a
    session value. *)
Inductive header_value : Type :=
| HLit (s : string)
| HBearer (token : json).

(** The arguments of a [post].  [data] is the document handed to
    [json.dumps]; [timeout] is in seconds. *)
Record request : Type := Request {
  url : string;
  headers : list (string * header_value);
  data : option json;
  timeout : option Z
}.

(** A response: [status_code] ([status] in aiohttp), [text], and what
    [response.json()] evaluates to (it raises when the body is not JSON). *)
Record response : Type := Response {
  status_code : Z;
  text : string;
  body_json : result json
}.

(** The backend: given the requests sent so far, what the next one gets. *)
Definition network : Type := list request -> request -> result response.

(** ** Session state and trace *)

Record session : Type := Session {
  app_mode : string;
  authenticated : bool;
  access_token : json;
  username : string;
  password : string;
  base_url : string;
  companies : json;
  messages : list json
}.

Definition set_authenticated (b : bool) (s : session) : session :=
  Session (app_mode s) b (access_token s) (username s) (password s)
          (base_url s) (companies s) (messages s).
Definition set_access_token (t : json) (s : session) : session :=
  Session (app_mode s) (authenticated s) t (username s) (password s)
          (base_url s) (companies s) (messages s).
Definition set_companies (c : json) (s : session) : session :=
  Session (app_mode s) (authenticated s) (access_token s) (username s)
          (password s) (base_url s) c (messages s).
Definition set_messages (m : list json) (s : session) : session :=
  Session (app_mode s) (authenticated s) (access_token s) (username s)
          (password s) (base_url s) (companies s) m.
Definition set_app_mode (m : string) (s : session) : session :=
  Session m (authenticated s) (access_token s) (username s)
          (password s) (base_url s) (companies s) (messages s).
Definition set_credentials (u p b : string) (s : session) : session :=
  Session (app_mode s) (authenticated s) (access_token s) u p b
          (companies s) (messages s).

(** Lines 22-32: the state of a fresh session.  The three strings are the
    values of the environment variables (or their defaults). *)
Definition init_session (env_username env_password env_base_url : string)
  : session :=
  {| app_mode := "Ask Question";
     authenticated := false;
     access_token := JNull;
     username := env_username;
     password := env_password;
     base_url := env_base_url;
     companies := JArr [];
     messages := [] |}.

Inductive ui_kind : Type :=
| UiError | UiSidebarError | UiSuccess | UiInfo | UiWarning
| UiSubheader | UiWrite | UiMarkdown | UiJson | UiChatMessage.

Inductive event : Type :=
| EvPost (r : request)
| EvUi (k : ui_kind) (content : json).

Definition posts (tr : list event) : list request :=
  omap (fun ev => match ev with EvPost r => Some r | EvUi _ _ => None end) tr.

Record world : Type := World { w_session : session; w_trace : list event }.

(** ** The monad of the handlers: state, trace and exceptions.  As in
    Python, what a block did to the state before it raised stays done. *)
Definition M (A : Type) : Type := world -> result A * world.

Definition ret {A} (a : A) : M A := fun w => (Ok a, w).
Definition bind {A B} (m : M A) (k : A -> M B) : M B :=
  fun w => match m w with
           | (Ok a, w') => k a w'
           | (Raise e, w') => (Raise e, w')
           end.
Definition try_except {A} (m : M A) (h : exn -> M A) : M A :=
  fun w => match m w with
           | (Ok a, w') => (Ok a, w')
           | (Raise e, w') => h e w'
           end.
Definition lift {A} (r : result A) : M A := fun w => (r, w).
Definition get_session : M session := fun w => (Ok (w_session w), w).
Definition modify (f : session -> session) : M unit :=
  fun w => (Ok tt, World (f (w_session w)) (w_trace w)).
Definition emit (ev : event) : M unit :=
  fun w => (Ok tt, World (w_session w) (w_trace w ++ [ev])).
Definition ui (k : ui_kind) (content : json) : M unit := emit (EvUi k content).
Definition ui_str (k : ui_kind) (msg : string) : M unit := ui k (JStr msg).

Declare Scope handler_scope.
Delimit Scope handler_scope with handler.
Notation "x <- c1 ;; c2" := (bind c1 (fun x => c2))
  (at level 100, c1 at next level, right associativity) : handler_scope.
Notation "c1 ;; c2" := (bind c1 (fun _ => c2))
  (at level 100, right associativity) : handler_scope.
Local Open Scope handler_scope.

Section Handlers.

Variable net : network.

(** [requests.post(...)]: the request goes out, the backend decides. *)
Definition post (r : request) : M response :=
  fun w => (net (posts (w_trace w)) r,
            World (w_session w) (w_trace w ++ [EvPost r])).

Definition json_headers : list (string * header_value) :=
  [("Content-Type", HLit "application/json")].

Definition bearer_headers (token : json) : list (string * header_value) :=
  [("Authorization", HBearer token);
   ("Content-Type", HLit "application/json")].

Definition status_and_text (r : response) : string :=
  str_of_int (status_code r) +:+ " - " +:+ text r.

(** Lines 77-97. *)
Definition company_request (s : session) : request :=
  {| url := base_url s +:+ "/company_list/";
     headers := bearer_headers (access_token s);
     data := None;
     timeout := None |}.

Definition fetch_companies : M unit :=
  s <- get_session ;;
  if negb (authenticated s) then ret tt
  else
    try_except
      (response <- post (company_request s) ;;
       if status_code response =? 200 then
         data <- lift (body_json response) ;;
         cs <- lift (py_get data "companies" (JArr [])) ;;
         modify (set_companies cs)
       else
         ui_str UiError
           ("Failed to fetch companies: " +:+ status_and_text response))
      (fun e => ui_str UiError ("Error fetching companies: " +:+ exn_str e)).

(** Lines 39-73. *)
Definition auth_request (s : session) : request :=
  {| url := base_url s +:+ "/auth/token/";
     headers := json_headers;
     data := Some (JObj [("username", JStr (username s));
                         ("password", JStr (password s))]);
     timeout := Some 30 |}.

Definition authenticate : M bool :=
  s <- get_session ;;
  try_except
    (response <- post (auth_request s) ;;
     if status_code response =? 200 then
       token_dict <- lift (body_json response) ;;
       access_token <- lift (py_get token_dict "access" JNull) ;;
       modify (set_access_token access_token) ;;
       modify (set_authenticated true) ;;
       fetch_companies ;;
       ret true
     else
       ui_str UiSidebarError
         ("Authentication failed: " +:+ status_and_text response) ;;
       modify (set_authenticated false) ;;
       ret false)
    (fun e =>
       ui_str UiSidebarError ("Authentication error: " +:+ exn_str e) ;;
       modify (set_authenticated false) ;;
       ret false).

(** Lines 219-306: the crawl form and its submit handler.  The prompt
    text area exists only when the crawl type is "Custom Prompt";
    otherwise [custom_prompt] stays [None]. *)
Inductive crawl_type : Type := LiteCrawl | CustomPrompt.

Record crawl_form : Type := CrawlForm {
  company_domains : string;
  form_crawl_type : crawl_type;
  prompt_area : string
}.

Definition is_custom (t : crawl_type) : bool :=
  match t with CustomPrompt => true | LiteCrawl => false end.
Definition is_lite (t : crawl_type) : bool :=
  match t with LiteCrawl => true | CustomPrompt => false end.

Definition custom_prompt (f : crawl_form) : option string :=
  match form_crawl_type f with
  | CustomPrompt => Some (prompt_area f)
  | LiteCrawl => None
  end.

Definition opt_truthy (o : option string) : bool :=
  match o with Some p => str_truthy p | None => false end.

(** [[d.strip() for d in text.split("\n") if d.strip()]] *)
Definition parse_domains (text : string) : list string :=
  map strip
    (List.filter (fun d => str_truthy (strip d)) (split newline text)).

Definition crawl_payload (f : crawl_form) (domains_list : list string)
  : list (string * json) :=
  let payload :=
    [("company_domains", JArr (map JStr domains_list));
     ("lite_crawl", JBool (is_lite (form_crawl_type f)))] in
  if is_custom (form_crawl_type f) && opt_truthy (custom_prompt f) then
    match custom_prompt f with
    | Some p => dict_set "prompt" (JStr p) payload
    | None => payload
    end
  else payload.

Definition crawl_request (s : session) (f : crawl_form)
    (domains_list : list string) : request :=
  {| url := base_url s +:+ "/company_crawl/";
     headers := bearer_headers (access_token s);
     data := Some (JObj (crawl_payload f domains_list));
     timeout := Some 30 |}.

Definition submit_crawl (f : crawl_form) : M unit :=
  s <- get_session ;;
  if negb (authenticated s) then
    ui_str UiError "Please authenticate first!"
  else if negb (str_truthy (company_domains f)) then
    ui_str UiError "Please enter at least one company domain"
  else if is_custom (form_crawl_type f)
          && negb (opt_truthy (custom_prompt f)) then
    ui_str UiError "Please enter a custom prompt"
  else
    let domains_list := parse_domains (company_domains f) in
    match domains_list with
    | _ :: _ =>
        try_except
          (response <- post (crawl_request s f domains_list) ;;
           if status_code response =? 200 then
             data <- lift (body_json response) ;;
             ui_str UiSuccess "Crawling request submitted successfully!" ;;
             message <- lift (py_get data "message"
               (JStr "You will be notified when crawling is complete.")) ;;
             ui UiInfo message ;;
             ui_str UiSubheader "Domains being crawled:" ;;
             foldr (fun domain k => ui_str UiWrite ("- " +:+ domain) ;; k)
                   (ret tt) domains_list
           else
             ui_str UiError
               ("Failed to submit crawl request: "
                  +:+ status_and_text response))
          (fun e =>
             ui_str UiError
               ("Error submitting crawl request: " +:+ exn_str e))
    | [] => ui_str UiError "No valid domains found"
    end.

(** Lines 149-211: the values of the configuration widgets. *)
Record qa_config : Type := QAConfig {
  selected_model : string;
  temperature : QArith_base.Q;
  k_value : Z;
  use_reranker : bool;
  rerank_top_n : Z;
  recursion_limit : Z
}.

(** Lines 392-406. *)
Definition qa_dict (cfg : qa_config) (prompt : string) : json :=
  JObj [("query", JStr prompt);
        ("llm_kwargs",
          JObj [("model_name", JStr (selected_model cfg));
                ("temperature", JFloat (temperature cfg))]);
        ("vectorstore_kwargs",
          JObj [("k", JInt (k_value cfg));
                ("use_reranker", JBool (use_reranker cfg));
                ("rerank_top_n",
                  if use_reranker cfg then JInt (rerank_top_n cfg)
                  else JNull)]);
        ("recursion_limit", JInt (recursion_limit cfg))].

Definition qa_payload (company_domain : string) (qa : json) : json :=
  JObj [("company_domain", JStr company_domain); ("qa_dict", qa)].

Definition qa_request (s : session) (cfg : qa_config)
    (selected_domain prompt : string) : request :=
  {| url := base_url s +:+ "/company_qa/";
     headers := bearer_headers (access_token s);
     data := Some (qa_payload selected_domain (qa_dict cfg prompt));
     timeout := Some 500 |}.

Definition append_message (m : json) : M unit :=
  modify (fun s => set_messages (messages s ++ [m]) s).

Definition user_message (prompt : string) : json :=
  JObj [("role", JStr "user"); ("content", JStr prompt)].

Definition warning_sign : string := "⚠️ ".

Definition error_message (error_msg : string) : json :=
  JObj [("role", JStr "assistant");
        ("content", JStr (warning_sign +:+ error_msg))].

(** Lines 377-478: what happens when [st.chat_input] delivers a prompt.
    [now] is [datetime.now().isoformat()]. *)
Definition submit_prompt (cfg : qa_config) (selected_domain : string)
    (now : string) (prompt : string) : M unit :=
  if str_truthy prompt then
    append_message (user_message prompt) ;;
    ui_str UiChatMessage "user" ;;
    ui_str UiMarkdown prompt ;;
    ui_str UiChatMessage "assistant" ;;
    s <- get_session ;;
    try_except
      (response <- post (qa_request s cfg selected_domain prompt) ;;
       if status_code response =? 200 then
         data <- lift (body_json response) ;;
         answer <- lift (py_get data "output" (JStr "No answer available")) ;;
         let formatted_answer := answer in
         ui UiMarkdown formatted_answer ;;
         let json_output :=
           [("query", JStr prompt);
            ("response", answer);
            ("company_domain", JStr selected_domain);
            ("timestamp", JStr now)] in
         let json_output :=
           if isinstance_dict data
           then dict_set "full_response" data json_output
           else json_output in
         ui UiJson (JObj json_output) ;;
         append_message
           (JObj [("role", JStr "assistant");
                  ("content", formatted_answer);
                  ("json_output", JObj json_output)])
       else
         let error_msg := "Error: " +:+ status_and_text response in
         ui_str UiError error_msg ;;
         append_message (error_message error_msg))
      (fun e =>
         let error_msg := "Error getting answer: " +:+ exn_str e in
         ui_str UiError error_msg ;;
         append_message (error_message error_msg))
  else ret tt.

(** Lines 481-483: the "Clear Chat History" button. *)
Definition clear_chat : M unit :=
  s <- get_session ;;
  match messages s with
  | _ :: _ => modify (set_messages [])
  | [] => ret tt
  end.

(** Lines 128-144: the mode radio.  Choosing "Ask Question" while another
    mode was active refreshes the company list. *)
Definition select_mode (mode : string) : M unit :=
  s <- get_session ;;
  (if negb (String.eqb mode (app_mode s))
      && String.eqb mode "Ask Question"
      && authenticated s
   then fetch_companies else ret tt) ;;
  modify (set_app_mode mode).

(** ** The pages (lines 308-318 and 320-489) *)

(** Iterating a Python value: the elements of a list, the keys of a dict,
    the characters of a string; anything else is not iterable. *)
Fixpoint chars (s : string) : list json :=
  match s with
  | EmptyString => []
  | String c r => JStr (String c EmptyString) :: chars r
  end.

Definition TypeError (msg : string) : exn := Exn "TypeError" msg.

(** [str(KeyError(k))] is the [repr] of the key. *)
Definition KeyError (k : string) : exn := Exn "KeyError" ("'" +:+ k +:+ "'").

Definition not_iterable (v : json) : exn :=
  TypeError ("'" +:+ type_name v +:+ "' object is not iterable").

(** [x["key"]] on a value that is not a dict (the wording of CPython 3.11
    and later for a string). *)
Definition not_subscriptable (v : json) : exn :=
  match v with
  | JStr _ => TypeError "string indices must be integers, not 'str'"
  | JArr _ => TypeError "list indices must be integers or slices, not str"
  | _ => TypeError ("'" +:+ type_name v +:+ "' object is not subscriptable")
  end.

Definition py_iter (v : json) : result (list json) :=
  match v with
  | JArr xs => Ok xs
  | JObj kvs => Ok (map (fun kv => JStr (fst kv)) kvs)
  | JStr s => Ok (chars s)
  | _ => Raise (not_iterable v)
  end.

(** [d[k]] on a dict. *)
Definition dict_item (k : string) (d : list (string * json)) : result json :=
  match dict_lookup k d with
  | Some v => Ok v
  | None => Raise (KeyError k)
  end.

(** A list comprehension whose element expression may raise: the first
    element that raises ends it. *)
Fixpoint map_result {A B} (f : A -> result B) (l : list A)
  : result (list B) :=
  match l with
  | [] => Ok []
  | a :: l' =>
      match f a with
      | Raise e => Raise e
      | Ok b =>
          match map_result f l' with
          | Ok bs => Ok (b :: bs)
          | Raise e => Raise e
          end
      end
  end.

(** Lines 311-317: the rows of the "Companies in Database" table. *)
Definition company_row (company : json) : result json :=
  match py_get company "company_name" (JStr "N/A") with
  | Raise e => Raise e
  | Ok name =>
      match py_get company "company_domain" (JStr "N/A") with
      | Raise e => Raise e
      | Ok domain => Ok (JObj [("Name", name); ("Domain", domain)])
      end
  end.

Definition company_data (s : session) : result (list json) :=
  match py_iter (companies s) with
  | Raise e => Raise e
  | Ok cs => map_result company_row cs
  end.

(** Lines 333-337: the domains offered by the select box. *)
Fixpoint domain_options_of (cs : list json) : result (list json) :=
  match cs with
  | [] => Ok []
  | company :: cs' =>
      match py_get company "company_domain" JNull with
      | Raise e => Raise e
      | Ok v =>
          if truthy v then
            match py_get company "company_domain" (JStr "") with
            | Raise e => Raise e
            | Ok domain =>
                match domain_options_of cs' with
                | Ok ds => Ok (domain :: ds)
                | Raise e => Raise e
                end
            end
          else domain_options_of cs'
      end
  end.

Definition domain_options (s : session) : result (list json) :=
  match py_iter (companies s) with
  | Raise e => Raise e
  | Ok cs => domain_options_of cs
  end.

(** Lines 345-352: the first company whose domain is the selected one
    ([next] over the generator); a value equals a [str] only if it is that
    [str]. *)
Definition is_str (d : string) (v : json) : bool :=
  match v with JStr d' => String.eqb d' d | _ => false end.

Fixpoint find_company (cs : list json) (selected_domain : string)
  : result (option json) :=
  match cs with
  | [] => Ok None
  | company :: cs' =>
      match py_get company "company_domain" JNull with
      | Raise e => Raise e
      | Ok v =>
          if is_str selected_domain v then Ok (Some company)
          else find_company cs' selected_domain
      end
  end.

Definition unknown_company : json := JObj [("company_name", JStr "Unknown")].

Definition selected_company (s : session) (selected_domain : string)
  : result json :=
  match py_iter (companies s) with
  | Raise e => Raise e
  | Ok cs =>
      match find_company cs selected_domain with
      | Raise e => Raise e
      | Ok found => Ok (default unknown_company found)
      end
  end.

(** [str.capitalize] on ASCII: the first character in upper case, the others
    in lower case. *)
Definition upper (c : ascii) : ascii :=
  let n := nat_of_ascii c in
  if ((97 <=? n) && (n <=? 122))%nat then ascii_of_nat (n - 32) else c.

Definition lower (c : ascii) : ascii :=
  let n := nat_of_ascii c in
  if ((65 <=? n) && (n <=? 90))%nat then ascii_of_nat (n + 32) else c.

Fixpoint lower_all (s : string) : string :=
  match s with
  | EmptyString => EmptyString
  | String c r => String (lower c) (lower_all r)
  end.

Definition capitalize (s : string) : string :=
  match s with
  | EmptyString => EmptyString
  | String c r => String (upper c) (lower_all r)
  end.

Definition dot : ascii := ascii_of_nat 46.

(** Lines 354-356.  The default is computed before [get] is called, so a
    selected value that is not a string (it has no [split]) raises. *)

Definition company_name (company : json) (selected_domain : string)
  : result json :=
  let fallback := capitalize (hd EmptyString (split dot selected_domain)) in
  py_get company "company_name" (JStr fallback).

(** Lines 365-371: one entry of the chat history on the screen. *)
Definition show_message (message : json) : M unit :=
  match message with
  | JObj d =>
      role <- lift (dict_item "role" d) ;;
      ui UiChatMessage role ;;
      content <- lift (dict_item "content" d) ;;
      ui UiMarkdown content ;;
      if is_str "assistant" role
         && match dict_lookup "json_output" d with
            | Some _ => true
            | None => false
            end
      then json_output <- lift (dict_item "json_output" d) ;;
           ui UiJson json_output
      else ret tt
  | _ => lift (Raise (not_subscriptable message))
  end.

(** Lines 320-489: the "Ask Question" page.  [selected_domain] is what the
    select box returns, [prompt] what the chat input returns ([None] when
    nothing was submitted), [clear_clicked] the state of the "Clear Chat
    History" button.  The f-string of the subheader is kept as its parts. *)
Definition ask_question_page (cfg : qa_config) (now : string)
    (selected_domain : json) (prompt : option string) (clear_clicked : bool)
  : M unit :=
  s <- get_session ;;
  if negb (authenticated s) then
    ui_str UiWarning "Please authenticate first to use the chat feature"
  else
    (if negb (truthy (companies s)) then fetch_companies else ret tt) ;;
    s <- get_session ;;
    if truthy (companies s) then
      options <- lift (domain_options s) ;;
      match options with
      | _ :: _ =>
          match selected_domain with
          | JStr domain =>
              company <- lift (selected_company s domain) ;;
              name <- lift (company_name company domain) ;;
              ui UiSubheader (JArr [JStr "Chat with "; name;
                                    JStr " assistant"]) ;;
              foldr (fun message k => show_message message ;; k) (ret tt)
                    (messages s) ;;
              match prompt with
              | Some p => submit_prompt cfg domain now p
              | None => ret tt
              end ;;
              s <- get_session ;;
              match messages s with
              | _ :: _ => if clear_clicked then modify (set_messages [])
                          else ret tt
              | [] => ret tt
              end
          | _ => lift (Raise (AttributeError selected_domain "split"))
          end
      | [] =>
          ui_str UiWarning "No company domains available in the database."
      end
    else
      ui_str UiWarning
        ("No companies available. Please add companies using the "
           +:+ "Crawl Company Website feature first.").

End Handlers.

(** ** Batch QA (lines 493-528) *)

(** [asyncio.gather] of a list of awaitables, without [return_exceptions].  Every awaitable is
    started at once; [outs] says how each one ends ([None]: it never does)
    and [sched] lists the awaitables in the order in which they finish.  A
    result is stored in the slot of its awaitable, whatever the order; the
    first awaitable to finish with an exception makes [gather] raise it.
    [gather] is done ([Some]) when it has raised or all slots are filled. *)
Fixpoint gather_loop {A} (outs : list (option (result A))) (sched : list nat)
    (slots : list (option A)) : result (list (option A)) :=
  match sched with
  | [] => Ok slots
  | i :: sched' =>
      match outs !! i with
      | Some (Some (Ok a)) => gather_loop outs sched' (<[i := Some a]> slots)
      | Some (Some (Raise e)) => Raise e
      | Some None | None => gather_loop outs sched' slots
      end
  end.

Fixpoint all_filled {A} (slots : list (option A)) : option (list A) :=
  match slots with
  | [] => Some []
  | Some a :: slots' =>
      match all_filled slots' with
      | Some l => Some (a :: l)
      | None => None
      end
  | None :: _ => None
  end.

Definition gather {A} (outs : list (option (result A))) (sched : list nat)
  : option (result (list A)) :=
  match gather_loop outs sched (replicate (length outs) None) with
  | Raise e => Some (Raise e)
  | Ok slots =>
      match all_filled slots with
      | Some l => Some (Ok l)
      | None => None
      end
  end.

(** The backend of a batch: what the request at row [i] (domain) and column
    [j] (question) of the matrix gets. *)
Definition batch_network : Type := nat -> nat -> request -> result response.

Definition batch_request (base : string) (token : json)
    (company_domain : string) (qa : json) : request :=
  {| url := base +:+ "/company_qa/";
     headers := [("Authorization", HBearer token);
                 ("Content-Type", HLit "application/json")];
     data := Some (JObj [("company_domain", JStr company_domain);
                         ("qa_dict", qa)]);
     timeout := None |}.

Definition failed_entry : json :=
  JObj [("error", JStr "Failed to fetch response")].

(** Lines 509-515: the loop over the gathered responses. *)
Fixpoint collect_results (responses : list response) (results : list json)
  : result (list json) :=
  match responses with
  | [] => Ok results
  | response :: responses' =>
      if status_code response =? 200 then
        match body_json response with
        | Ok v => collect_results responses' (results ++ [v])
        | Raise e => Raise e
        end
      else collect_results responses' (results ++ [failed_entry])
  end.

Definition fetch_company_qa_responses (s : session)
    (answer : nat -> request -> result response) (sched : list nat)
    (company_domain : string) (qa_list : list json) (token : json)
  : option (result (list json)) :=
  let tasks :=
    imap (fun j qa =>
            Some (answer j (batch_request (base_url s) token company_domain qa)))
         qa_list in
  match gather tasks sched with
  | None => None
  | Some (Raise e) => Some (Raise e)
  | Some (Ok responses) => Some (collect_results responses [])
  end.

(** [inner i] is the order in which the requests of domain [i] finish,
    [outer] the order in which the domains' coroutines finish. *)
Definition fetch_qa_responses (s : session) (net : batch_network)
    (inner : nat -> list nat) (outer : list nat)
    (domains_list : list string) (qa_list : list json)
  : option (result (list (list json))) :=
  let qa_tasks :=
    imap (fun i domain =>
            fetch_company_qa_responses s (net i) (inner i) domain qa_list
              (access_token s))
         domains_list in
  gather qa_tasks outer.

(** ** User actions and reachable sessions *)

Inductive op : Type :=
| OpEdit (u p b : string)
| OpAuthenticate
| OpSelectMode (mode : string)
| OpFetchCompanies
| OpSubmitCrawl (f : crawl_form)
| OpSubmitPrompt (cfg : qa_config) (selected_domain now prompt : string)
| OpClearChat.

Definition run_op (net : network) (o : op) : M unit :=
  match o with
  | OpEdit u p b => modify (set_credentials u p b)
  | OpAuthenticate => _ <- authenticate net ;; ret tt
  | OpSelectMode mode => select_mode net mode
  | OpFetchCompanies => fetch_companies net
  | OpSubmitCrawl f => submit_crawl net f
  | OpSubmitPrompt cfg selected_domain now prompt =>
      submit_prompt net cfg selected_domain now prompt
  | OpClearChat => clear_chat
  end.

(** One user action on a session, against a backend. *)
Definition exec (net : network) (o : op) (s : session) : session :=
  w_session (snd (run_op net o (World s []))).

(** Sessions reachable from a fresh one when every backend met on the way
    satisfies [P]. *)
Inductive reachable_when (P : network -> Prop) : session -> Prop :=
| reach_init u p b : reachable_when P (init_session u p b)
| reach_step net o s :
    P net -> reachable_when P s -> reachable_when P (exec net o s).

Definition reachable : session -> Prop := reachable_when (fun _ => True).

(** The contract of the token endpoint (its success shape is
    [{access: string}]): a 200 answer to the token request carries a
    non-empty access string. *)
Definition nonempty_token (t : json) : Prop :=
  match t with JStr x => x <> "" | _ => False end.

Definition token_contract (net : network) : Prop :=
  forall hist s r,
    net hist (auth_request s) = Ok r ->
    status_code r = 200 ->
    exists d t, body_json r = Ok (JObj d)
                /\ dict_lookup "access" d = Some t /\ nonempty_token t.

(** Running a handler from a session with an empty trace. *)
Definition run {A} (m : M A) (s : session) : result A * world :=
  m (World s []).
Definition session_after {A} (m : M A) (s : session) : session :=
  w_session (snd (run m s)).
Definition sent {A} (m : M A) (s : session) : list request :=
  posts (w_trace (snd (run m s))).

(** * Vocabulary of the statements, and the data of the examples *)

(** Of the two requests of [authenticate], the token request is the one
    with a body; the company-list request has none. *)
Definition is_auth_request (r : request) : bool :=
  match data r with Some _ => true | None => false end.

Definition ok_response (v : json) : response :=
  {| status_code := 200; text := "OK"; body_json := Ok v |}.

Definition status_response (code : Z) (msg : string) : response :=
  {| status_code := code; text := msg;
     body_json := Raise (Exn "JSONDecodeError" "Expecting value") |}.

Definition acme : json :=
  JObj [("company_name", JStr "Acme"); ("company_domain", JStr "acme.com")].

(** A backend that accepts the credentials and knows one company. *)
Definition net_accept : network :=
  fun _ r =>
    if is_auth_request r
    then Ok (ok_response (JObj [("access", JStr "tok-1")]))
    else Ok (ok_response (JObj [("companies", JArr [acme])])).

(** A backend that answers every request with 401. *)
Definition net_reject : network :=
  fun _ _ => Ok (status_response 401 "Unauthorized").

(** A backend whose 200 answers are JSON objects without the expected
    keys. *)
Definition net_empty_object : network :=
  fun _ _ => Ok (ok_response (JObj [])).

Definition fresh : session := init_session "username" "password" "https://example.com".

Definition logged_in : session := exec net_accept OpAuthenticate fresh.

Definition two_companies : session :=
  set_companies (JArr [JObj [("company_domain", JStr "old.com")];
                       JObj [("company_domain", JStr "older.com")]])
                logged_in.

(** The token request is answered with 200 and a JSON object. *)
Definition token_granted (net : network) (tr : list event) (s : session)
    (d : list (string * json)) : Prop :=
  exists r, net (posts tr) (auth_request s) = Ok r
            /\ status_code r = 200 /\ body_json r = Ok (JObj d).

(** Lines 59-60: the two writes of a successful [authenticate]. *)
Definition with_token (t : json) (s : session) : session :=
  set_authenticated true (set_access_token t s).


(** [frames R m]: the world after [m] is related by [R] to the world before,
    whether [m] returns or raises.  For a preorder [R] this goes through
    binds and exception handlers. *)
Definition frames (R : relation world) {A} (m : M A) : Prop :=
  forall w, R w (snd (m w)).

(** The authentication fields are what they were. *)
Definition same_auth : relation world :=
  fun w w' =>
    authenticated (w_session w') = authenticated (w_session w)
    /\ access_token (w_session w') = access_token (w_session w).

Definition keeps_auth {A} (m : M A) : Prop := frames same_auth m.

Definition auth_neutral (f : session -> session) : Prop :=
  forall s, authenticated (f s) = authenticated s
            /\ access_token (f s) = access_token s.

(** A session that authenticated once and was then refused, and one that
    was answered 200 without a token. *)
Definition refused_later : session := exec net_reject OpAuthenticate logged_in.

Definition tokenless : session := exec net_empty_object OpAuthenticate fresh.

(** Nothing is sent. *)
Definition no_posts : relation world :=
  fun w w' => posts (w_trace w') = posts (w_trace w).

Definition lite_form (text : string) : crawl_form :=
  {| company_domains := text; form_crawl_type := LiteCrawl;
     prompt_area := "" |}.

Definition custom_form (text prompt : string) : crawl_form :=
  {| company_domains := text; form_crawl_type := CustomPrompt;
     prompt_area := prompt |}.

(** What the submit handler sends: nothing, or the one crawl request. *)
Definition crawl_accepted (s : session) (f : crawl_form) : bool :=
  authenticated s
  && str_truthy (company_domains f)
  && negb (is_custom (form_crawl_type f) && negb (opt_truthy (custom_prompt f)))
  && match parse_domains (company_domains f) with [] => false | _ => true end.

Definition two_lines (a b : string) : string := a +:+ String newline b.

(** U+00A0 and U+2003 in UTF-8. *)
Definition no_break_space : string :=
  String (ascii_of_nat 194) (String (ascii_of_nat 160) EmptyString).

Definition em_space : string :=
  String (ascii_of_nat 226)
    (String (ascii_of_nat 128) (String (ascii_of_nat 131) EmptyString)).

Definition prompt_entry (f : crawl_form) : list (string * json) :=
  match form_crawl_type f with
  | CustomPrompt => [("prompt", JStr (prompt_area f))]
  | LiteCrawl => []
  end.

(** The retrieval sub-object of a QA dictionary. *)
Definition vectorstore_kwargs_of (qa : json) : list (string * json) :=
  match qa with
  | JObj d =>
      match dict_lookup "vectorstore_kwargs" d with
      | Some (JObj vs) => vs
      | _ => []
      end
  | _ => []
  end.

(** The property of the retrieval sub-object as the specification words
    it: the key [rerank_top_n] is present if and only if the reranker is
    on. *)
Definition rerank_key_iff_reranker (cfg : qa_config) (prompt : string)
  : Prop :=
  In "rerank_top_n" (dict_keys (vectorstore_kwargs_of (qa_dict cfg prompt)))
  <-> use_reranker cfg = true.

Definition default_config : qa_config :=
  {| selected_model := "gpt-4o-mini";
     temperature := QArith_base.Qmake 1 10;
     k_value := 30;
     use_reranker := true;
     rerank_top_n := 10;
     recursion_limit := 25 |}.

(** A chat entry whose role is "assistant". *)
Definition reranker_off : qa_config :=
  {| selected_model := "gpt-4o-mini";
     temperature := QArith_base.Qmake 1 10;
     k_value := 30;
     use_reranker := false;
     rerank_top_n := 10;
     recursion_limit := 25 |}.

Definition is_assistant_message (m : json) : Prop :=
  exists content rest,
    m = JObj (("role", JStr "assistant") :: ("content", content) :: rest).

(** A backend whose 200 answers are JSON lists. *)
Definition net_list : network := fun _ _ => Ok (ok_response (JArr [])).

Definition net_answer : network :=
  fun _ _ => Ok (ok_response (JObj [("output", JStr "Acme makes anvils.")])).

(** What one request of the batch contributes: R(domain, question). *)
Definition qa_entry (out : result response) : result json :=
  match out with
  | Ok r => if status_code r =? 200 then body_json r else Ok failed_entry
  | Raise e => Raise e
  end.

(** The matrix of the contributions, rows in the order of the domains,
    columns in the order of the questions. *)
Definition answer_matrix (s : session) (net : batch_network)
    (domains_list : list string) (qa_list : list json)
  : list (list (result json)) :=
  imap (fun i domain =>
          imap (fun j qa =>
                  qa_entry (net i j (batch_request (base_url s)
                                       (access_token s) domain qa)))
               qa_list)
       domains_list.

(** The slots after the awaitables of [sched] have finished, when none of
    them raises: [vals] are their results. *)
Definition fill {A} (vals : list A) (sched : list nat)
    (slots : list (option A)) : list (option A) :=
  foldl (fun sl i => match vals !! i with
                     | Some a => <[i := Some a]> sl
                     | None => sl
                     end) slots sched.

(** The entry and the response of a request that was answered. *)
Definition entry_value (out : result response) : json :=
  match qa_entry out with Ok v => v | Raise _ => JNull end.

Definition response_of (out : result response) : response :=
  match out with Ok r => r | Raise _ => status_response 0 "" end.

(** Two domains, two questions, and backends for the batch. *)
Definition question (text : string) : json := qa_dict default_config text.

Definition two_domains : list string := ["a.com"; "b.com"].

Definition two_questions : list json :=
  [question "What does it do?"; question "Where is it based?"].

Definition answer_at (i j : nat) : json :=
  JObj [("output", JArr [JInt (Z.of_nat i); JInt (Z.of_nat j)])].

(** Every request is answered with 200 and an answer that names its
    position in the matrix. *)
Definition net_grid : batch_network :=
  fun i j _ => Ok (ok_response (answer_at i j)).

(** The second question about the first domain is answered with 500. *)
Definition net_one_500 : batch_network :=
  fun i j r =>
    if ((i =? 0) && (j =? 1))%nat
    then Ok (status_response 500 "Internal Server Error")
    else net_grid i j r.

(** No request can be sent. *)
Definition net_unreachable : batch_network :=
  fun _ _ _ => Raise (Exn "ClientConnectorError" "Cannot connect to host").

(** The second question about the first domain cannot be sent. *)
Definition net_one_down : batch_network :=
  fun i j r =>
    if ((i =? 0) && (j =? 1))%nat
    then Raise (Exn "ClientConnectorError" "Cannot connect to host")
    else net_grid i j r.

Definition same_on {X} (f : session -> X) : relation world :=
  fun w w' => f (w_session w') = f (w_session w).

(** The whole session. *)
Definition whole (s : session) : session := s.

Definition crawl_ready (s : session) (f : crawl_form) : Prop :=
  authenticated s = true
  /\ company_domains f <> ""
  /\ (form_crawl_type f = CustomPrompt -> prompt_area f <> "")
  /\ parse_domains (company_domains f) <> [].

(** The inputs of the user and the chat history. *)
Definition user_side (s : session)
  : string * string * string * string * list json :=
  (app_mode s, username s, password s, base_url s, messages s).

(** The session after a refresh, read off the answer to its request. *)
Definition refreshed (s : session) (out : result response) : session :=
  match out with
  | Ok r =>
      if status_code r =? 200 then
        match body_json r with
        | Ok (JObj d) =>
            set_companies (default (JArr []) (dict_lookup "companies" d)) s
        | _ => s
        end
      else s
  | Raise _ => s
  end.

(** The entry that answers a prompt, read off the outcome of the QA
    request. *)
Definition failure_text (out : result response) : option string :=
  match out with
  | Raise e => Some ("Error getting answer: " +:+ exn_str e)
  | Ok r =>
      if status_code r =? 200 then
        match body_json r with
        | Raise e => Some ("Error getting answer: " +:+ exn_str e)
        | Ok (JObj _) => None
        | Ok v =>
            Some ("Error getting answer: "
                    +:+ exn_str (AttributeError v "get"))
        end
      else Some ("Error: " +:+ status_and_text r)
  end.

Definition success_entry (dom now prompt : string)
    (d : list (string * json)) : json :=
  let answer := default (JStr "No answer available") (dict_lookup "output" d) in
  JObj [("role", JStr "assistant");
        ("content", answer);
        ("json_output",
          JObj [("query", JStr prompt);
                ("response", answer);
                ("company_domain", JStr dom);
                ("timestamp", JStr now);
                ("full_response", JObj d)])].

(** The assistant's entry for an outcome of the QA request. *)
Definition reply_entry (dom now prompt : string) (out : result response)
  : json :=
  match failure_text out with
  | Some msg => error_message msg
  | None =>
      match out with
      | Ok r => match body_json r with
                | Ok (JObj d) => success_entry dom now prompt d
                | _ => JNull
                end
      | Raise _ => JNull
      end
  end.

Definition is_user_message (m : json) : Prop :=
  exists prompt, prompt <> "" /\ m = user_message prompt.

(** The history is a sequence of exchanges: a user entry, then an assistant
    entry. *)
Fixpoint paired (ms : list json) : Prop :=
  match ms with
  | [] => True
  | u :: ms' =>
      match ms' with
      | [] => False
      | a :: rest =>
          is_user_message u /\ is_assistant_message a /\ paired rest
      end
  end.

Definition asked_once : session :=
  exec net_answer
    (OpSubmitPrompt default_config "acme.com" "2025-01-01T00:00:00"
       "What does Acme do?")
    logged_in.

Fixpoint contains (c : ascii) (s : string) : bool :=
  match s with
  | EmptyString => false
  | String c' r => Ascii.eqb c' c || contains c r
  end.

(** ["\n".join(domains)] *)
Fixpoint join_lines (domains : list string) : string :=
  match domains with
  | [] => EmptyString
  | d :: rest =>
      match rest with
      | [] => d
      | _ :: _ => d +:+ String newline (join_lines rest)
      end
  end.

(** A domain as the handler sends it: not empty, no white space at either
    end, on one line. *)
Definition clean_domain (d : string) : Prop :=
  d <> "" /\ strip d = d /\ contains newline d = false.

(** The value under "company_domain", [None] when there is none. *)
Definition domain_of (company : json) : json :=
  match company with
  | JObj d => default JNull (dict_lookup "company_domain" d)
  | _ => JNull
  end.

Definition all_dicts (cs : list json) : Prop :=
  Forall (fun c => isinstance_dict c = true) cs.

Definition three_companies : session :=
  set_companies
    (JArr [acme;
           JObj [("company_name", JStr "Nameless")];
           JObj [("company_domain", JStr "")];
           JObj [("company_domain", JStr "beta.io")]])
    logged_in.

(** The row of the table for a company given as its key-value pairs. *)
Definition table_row (kvs : list (string * json)) : json :=
  JObj [("Name", default (JStr "N/A") (dict_lookup "company_name" kvs));
        ("Domain", default (JStr "N/A") (dict_lookup "company_domain" kvs))].

(** A computation that returns, sends nothing and leaves the session. *)
Definition display_only (m : M unit) : Prop :=
  forall w, exists evs,
    m w = (Ok tt, World (w_session w) (w_trace w ++ evs)) /\ posts evs = [].

(** A 200 answer whose body is not JSON, at row 1, column 0. *)
Definition net_one_garbled : batch_network :=
  fun i j r =>
    if ((i =? 1) && (j =? 0))%nat
    then Ok {| status_code := 200; text := "<html>";
               body_json := Raise (Exn "ContentTypeError"
                                       "Attempt to decode JSON") |}
    else net_grid i j r.

(** Both requests of a domain fail, each in its own way. *)
Definition answer_both_fail : nat -> request -> result response :=
  fun j _ =>
    if (j =? 0)%nat then Raise (Exn "TimeoutError" "timed out")
    else Raise (Exn "ClientConnectorError" "Cannot connect to host").

(** No suffix of the string is white space only. *)
Fixpoint no_blank_tail (s : string) : Prop :=
  match s with
  | EmptyString => True
  | String c r => blank s = false /\ no_blank_tail r
  end.

(** * Properties *)

#[local] Arguments posts : simpl never.
#[local] Arguments company_request : simpl never.
#[local] Arguments auth_request : simpl never.
#[local] Arguments crawl_request : simpl never.
#[local] Arguments qa_request : simpl never.
#[local] Arguments status_and_text : simpl never.
#[local] Arguments String.append : simpl never.
#[local] Arguments str_of_int : simpl never.
#[local] Arguments fetch_companies : simpl never.

(** ** The company directory client *)

Lemma fetch_companies_unauthenticated net w :
  authenticated (w_session w) = false ->
  fetch_companies net w = (Ok tt, w).
Proof.
  intros H. unfold fetch_companies, bind, get_session. rewrite H. reflexivity.
Qed.

Lemma fetch_companies_success net s tr r d :
  authenticated s = true ->
  net (posts tr) (company_request s) = Ok r ->
  status_code r = 200 ->
  body_json r = Ok (JObj d) ->
  fetch_companies net (World s tr)
  = (Ok tt, World (set_companies (default (JArr []) (dict_lookup "companies" d)) s)
                  (tr ++ [EvPost (company_request s)])).
Proof.
  intros Ha Hn Hs Hb.
  unfold fetch_companies, bind, try_except, get_session, post, lift, modify.
  cbn. rewrite Ha. cbn. rewrite Hn, Hs. cbn. rewrite Hb. reflexivity.
Qed.

(** Whatever the backend does, [fetch_companies] returns normally, leaves
    every field but [companies] alone, and sends its one request exactly
    when the session is authenticated. *)
Lemma fetch_companies_frame net s tr :
  exists cs evs,
    fetch_companies net (World s tr)
    = (Ok tt, World (set_companies cs s) (tr ++ evs))
    /\ posts evs = if authenticated s then [company_request s] else [].
Proof.
  unfold fetch_companies, bind, try_except, get_session, post, lift, modify,
    ui_str, ui, emit, ret.
  cbn. destruct s as [m a t u p b c ms]; cbn.
  destruct a; cbn.
  - destruct (net _ _) as [r|e]; cbn.
    + destruct (status_code r =? 200); cbn.
      * destruct (body_json r) as [v|e]; cbn.
        -- destruct v; cbn;
             first [ eexists _, _; split; reflexivity
                   | exists c; eexists; split;
                     [rewrite <- app_assoc; reflexivity | reflexivity] ].
        -- exists c; eexists; split;
             [rewrite <- app_assoc; reflexivity | reflexivity].
      * exists c; eexists; split;
          [rewrite <- app_assoc; reflexivity | reflexivity].
    + exists c; eexists; split;
        [rewrite <- app_assoc; reflexivity | reflexivity].
  - exists c, []. rewrite app_nil_r. split; reflexivity.
Qed.

Lemma fetch_companies_failure net s tr :
  authenticated s = true ->
  (exists e, net (posts tr) (company_request s) = Raise e)
  \/ (exists r, net (posts tr) (company_request s) = Ok r
                /\ (status_code r <> 200
                    \/ forall d, body_json r <> Ok (JObj d))) ->
  w_session (snd (fetch_companies net (World s tr))) = s
  /\ posts (w_trace (snd (fetch_companies net (World s tr))))
     = posts tr ++ [company_request s].
Proof.
  intros Ha Hfail.
  unfold fetch_companies, bind, try_except, get_session, post, lift, modify,
    ui_str, ui, emit, ret.
  cbn. rewrite Ha. cbn.
  assert (Hposts : forall k msg,
    posts ((tr ++ [EvPost (company_request s)]) ++ [EvUi k msg])
    = posts tr ++ [company_request s]).
  { intros k msg. unfold posts. rewrite !omap_app. cbn.
    rewrite app_nil_r. reflexivity. }
  destruct Hfail as [[e He] | (r & Hr & Hbad)].
  - rewrite He. cbn. split; [reflexivity | apply Hposts].
  - rewrite Hr. cbn. destruct (Z.eqb_spec (status_code r) 200) as [H200|Hne].
    + destruct Hbad as [Hne | Hbody]; [contradiction |].
      destruct (body_json r) as [v|e]; cbn.
      * destruct v; cbn; try (split; [reflexivity | apply Hposts]).
        exfalso. eapply Hbody. reflexivity.
      * split; [reflexivity | apply Hposts].
    + cbn. split; [reflexivity | apply Hposts].
Qed.

(** C8: [fetch_companies] does nothing (no request, same state) on a session
    that is not authenticated; on a 200 answer whose body is a JSON object
    the company list becomes what the answer says, whatever it was before;
    on a transport failure, a non-200 status or an unusable body the session
    is exactly what it was. *)
Theorem fetch_companies_contract net s tr :
  (authenticated s = false ->
     fetch_companies net (World s tr) = (Ok tt, World s tr))
  /\ (forall r d,
        authenticated s = true ->
        net (posts tr) (company_request s) = Ok r ->
        status_code r = 200 ->
        body_json r = Ok (JObj d) ->
        w_session (snd (fetch_companies net (World s tr)))
        = set_companies (default (JArr []) (dict_lookup "companies" d)) s)
  /\ (authenticated s = true ->
      (exists e, net (posts tr) (company_request s) = Raise e)
      \/ (exists r, net (posts tr) (company_request s) = Ok r
                    /\ (status_code r <> 200
                        \/ forall d, body_json r <> Ok (JObj d))) ->
      w_session (snd (fetch_companies net (World s tr))) = s).
Proof.
  split; [| split].
  - intros Ha. apply fetch_companies_unauthenticated. exact Ha.
  - intros r d Ha Hn Hs Hb.
    rewrite (fetch_companies_success net s tr r d Ha Hn Hs Hb). reflexivity.
  - intros Ha Hfail. apply (fetch_companies_failure net s tr Ha Hfail).
Qed.

Lemma fetch_companies_contract_witness :
  fetch_companies net_accept (World fresh []) = (Ok tt, World fresh [])
  /\ companies (w_session (snd (fetch_companies net_accept
                                  (World two_companies []))))
     = JArr [acme]
  /\ w_session (snd (fetch_companies net_reject (World two_companies [])))
     = two_companies.
Proof.
  split; [| split].
  - apply (proj1 (fetch_companies_contract net_accept fresh [])).
    reflexivity.
  - rewrite (proj1 (proj2 (fetch_companies_contract net_accept two_companies []))
               (ok_response (JObj [("companies", JArr [acme])]))
               [("companies", JArr [acme])]
               eq_refl eq_refl eq_refl eq_refl).
    reflexivity.
  - apply (proj2 (proj2 (fetch_companies_contract net_reject two_companies []))).
    + reflexivity.
    + right. exists (status_response 401 "Unauthorized").
      split; [reflexivity | left; discriminate].
Defined.

(** C10: a 200 answer whose JSON object has no "companies" key makes the
    company list empty. *)
Theorem fetch_companies_missing_key net s tr r d :
  authenticated s = true ->
  net (posts tr) (company_request s) = Ok r ->
  status_code r = 200 ->
  body_json r = Ok (JObj d) ->
  dict_lookup "companies" d = None ->
  companies (w_session (snd (fetch_companies net (World s tr)))) = JArr [].
Proof.
  intros Ha Hn Hs Hb Hmiss.
  rewrite (fetch_companies_success net s tr r d Ha Hn Hs Hb).
  cbn. rewrite Hmiss. reflexivity.
Qed.

Lemma fetch_companies_missing_key_witness :
  companies two_companies <> JArr []
  /\ companies (w_session (snd (fetch_companies net_empty_object
                                  (World two_companies [])))) = JArr [].
Proof.
  split; [discriminate |].
  apply (fetch_companies_missing_key net_empty_object two_companies []
           (ok_response (JObj [])) []); reflexivity.
Defined.

(** ** The auth client *)

Lemma posts_app (tr1 tr2 : list event) :
  posts (tr1 ++ tr2) = posts tr1 ++ posts tr2.
Proof. unfold posts. apply omap_app. Qed.

Lemma authenticate_granted net s tr d :
  token_granted net tr s d ->
  let s1 := with_token (default JNull (dict_lookup "access" d)) s in
  exists cs evs,
    authenticate net (World s tr)
    = (Ok true, World (set_companies cs s1)
                      ((tr ++ [EvPost (auth_request s)]) ++ evs))
    /\ posts evs = [company_request s1].
Proof.
  intros (r & Hn & Hs & Hb) s1.
  destruct (fetch_companies_frame net s1 (tr ++ [EvPost (auth_request s)]))
    as (cs & evs & Hf & Hp).
  exists cs, evs. split; [| rewrite Hp; reflexivity].
  unfold authenticate, bind, try_except, get_session, post, lift, modify, ret.
  cbn. rewrite Hn, Hs. cbn. rewrite Hb. cbn.
  fold (with_token (default JNull (dict_lookup "access" d)) s). fold s1.
  rewrite Hf. reflexivity.
Qed.

Lemma authenticate_refused net s tr :
  (forall d, ~ token_granted net tr s d) ->
  exists msg,
    authenticate net (World s tr)
    = (Ok false, World (set_authenticated false s)
                       (tr ++ [EvPost (auth_request s);
                               EvUi UiSidebarError msg])).
Proof.
  intros Hno.
  unfold authenticate, bind, try_except, get_session, post, lift, modify, ret,
    ui_str, ui, emit.
  cbn. destruct (net (posts tr) (auth_request s)) as [r|e] eqn:Hn; cbn.
  - destruct (Z.eqb_spec (status_code r) 200) as [Hs|Hs]; cbn.
    + destruct (body_json r) as [v|e] eqn:Hb; cbn.
      * destruct v; cbn;
          try (eexists; rewrite <- app_assoc; reflexivity).
        exfalso. eapply Hno. exists r. eauto.
      * eexists; rewrite <- app_assoc; reflexivity.
    + eexists; rewrite <- app_assoc; reflexivity.
  - eexists; rewrite <- app_assoc; reflexivity.
Qed.

Lemma token_granted_dec net tr s :
  (exists d, token_granted net tr s d) \/ (forall d, ~ token_granted net tr s d).
Proof.
  unfold token_granted.
  destruct (net (posts tr) (auth_request s)) as [r|e] eqn:Hn.
  - destruct (Z.eqb_spec (status_code r) 200) as [Hs|Hs].
    + destruct (body_json r) as [v|e] eqn:Hb.
      * destruct v;
          try (right; intros d (r' & Hr' & _ & Hb'); congruence).
        left. exists kvs, r. auto.
      * right; intros d (r' & Hr' & _ & Hb'); congruence.
    + right; intros d (r' & Hr' & Hs' & _); congruence.
  - right; intros d (r' & Hr' & _); congruence.
Qed.


Lemma net_accept_contract : token_contract net_accept.
Proof.
  intros hist s r Hn Hs. unfold net_accept in Hn. cbn in Hn.
  injection Hn as <-.
  exists [("access", JStr "tok-1")], (JStr "tok-1").
  repeat split. discriminate.
Qed.

Lemma token_contract_nonempty net tr s d :
  token_contract net ->
  token_granted net tr s d ->
  nonempty_token (default JNull (dict_lookup "access" d)).
Proof.
  intros Hc (r & Hn & Hs & Hb).
  destruct (Hc _ _ _ Hn Hs) as (d' & t & Hb' & Hl & Ht).
  rewrite Hb in Hb'. injection Hb' as ->. rewrite Hl. exact Ht.
Qed.



(** ** What a handler leaves alone *)

Section Frames.

Context (R : relation world) `{!PreOrder R}.

Lemma frames_ret {A} (a : A) : frames R (ret a).
Proof. intros w. reflexivity. Qed.

Lemma frames_lift {A} (r : result A) : frames R (lift r).
Proof. intros w. reflexivity. Qed.

Lemma frames_get : frames R get_session.
Proof. intros w. reflexivity. Qed.

Lemma frames_bind {A B} (m : M A) (k : A -> M B) :
  frames R m -> (forall a, frames R (k a)) -> frames R (bind m k).
Proof.
  intros Hm Hk w. unfold bind. specialize (Hm w).
  destruct (m w) as [[a|e] w']; cbn in *.
  - transitivity w'; [exact Hm | apply Hk].
  - exact Hm.
Qed.

Lemma frames_try {A} (m : M A) (h : exn -> M A) :
  frames R m -> (forall e, frames R (h e)) -> frames R (try_except m h).
Proof.
  intros Hm Hh w. unfold try_except. specialize (Hm w).
  destruct (m w) as [[a|e] w']; cbn in *.
  - exact Hm.
  - transitivity w'; [exact Hm | apply Hh].
Qed.

End Frames.

(** Walks through a handler: binds, handlers of exceptions, branches; the
    leaves are left to the hints of the relation at hand. *)
Create HintDb frames.
#[local] Hint Resolve frames_ret frames_lift frames_get : frames.

Ltac frames_step :=
  match goal with
  | |- frames _ (bind _ _) => apply frames_bind; [typeclasses eauto | | intros ?]
  | |- frames _ (try_except _ _) =>
      apply frames_try; [typeclasses eauto | | intros ?]
  | |- frames _ (if ?b then _ else _) => destruct b
  | |- frames _ (match ?l with [] => _ | _ :: _ => _ end) => destruct l
  | |- frames _ (let _ := _ in _) => cbv zeta
  | |- frames _ _ => solve [auto with frames typeclass_instances]
  end.

(** *** The authentication fields *)

#[local] Instance same_auth_preorder : PreOrder same_auth.
Proof.
  split.
  - intros w. split; reflexivity.
  - intros a b c [H1 H2] [H3 H4]. split; congruence.
Qed.

Lemma keeps_ui k c : frames same_auth (ui k c).
Proof. intros w. split; reflexivity. Qed.

Lemma keeps_ui_str k msg : frames same_auth (ui_str k msg).
Proof. intros w. split; reflexivity. Qed.

Lemma keeps_post net r : frames same_auth (post net r).
Proof. intros w. split; reflexivity. Qed.

Lemma keeps_modify f : auth_neutral f -> frames same_auth (modify f).
Proof. intros Hf w. apply Hf. Qed.

Lemma neutral_companies c : auth_neutral (set_companies c).
Proof. intros s. split; reflexivity. Qed.

Lemma neutral_messages f : auth_neutral (fun s => set_messages (f s) s).
Proof. intros s. split; reflexivity. Qed.

Lemma neutral_clear : auth_neutral (set_messages []).
Proof. intros s. split; reflexivity. Qed.

Lemma neutral_app_mode m : auth_neutral (set_app_mode m).
Proof. intros s. split; reflexivity. Qed.

Lemma neutral_credentials u p b : auth_neutral (set_credentials u p b).
Proof. intros s. split; reflexivity. Qed.

#[local] Hint Resolve keeps_ui keeps_ui_str keeps_post keeps_modify
  neutral_companies neutral_messages neutral_clear neutral_app_mode
  neutral_credentials : frames.

Lemma keeps_fetch_companies net : keeps_auth (fetch_companies net).
Proof. unfold keeps_auth, fetch_companies. repeat frames_step. Qed.

Lemma frames_writes (R : relation world) `{!PreOrder R}
    (domains_list : list string) :
  (forall k msg, frames R (ui_str k msg)) ->
  frames R (foldr (fun domain k => ui_str UiWrite ("- " +:+ domain) ;; k)
                  (ret tt) domains_list).
Proof.
  intros Hui. induction domains_list as [|d l IH]; cbn [foldr].
  - apply frames_ret; assumption.
  - apply frames_bind; [assumption | apply Hui | intros _; exact IH].
Qed.

Lemma keeps_submit_crawl net f : keeps_auth (submit_crawl net f).
Proof.
  unfold keeps_auth, submit_crawl. repeat frames_step.
  apply frames_writes; [typeclasses eauto | apply keeps_ui_str].
Qed.

Lemma keeps_submit_prompt net cfg dom now prompt :
  keeps_auth (submit_prompt net cfg dom now prompt).
Proof.
  unfold keeps_auth, submit_prompt, append_message. repeat frames_step.
Qed.

Lemma keeps_clear_chat : keeps_auth clear_chat.
Proof. unfold keeps_auth, clear_chat. repeat frames_step. Qed.

Lemma keeps_select_mode net mode : keeps_auth (select_mode net mode).
Proof.
  unfold keeps_auth, select_mode. repeat frames_step.
  apply keeps_fetch_companies.
Qed.

(** ** The session invariant *)

Lemma exec_other_auth net o s :
  o <> OpAuthenticate ->
  authenticated (exec net o s) = authenticated s
  /\ access_token (exec net o s) = access_token s.
Proof.
  intros Ho. unfold exec.
  assert (Hk : keeps_auth (run_op net o)).
  { destruct o; cbn [run_op]; try congruence.
    - apply keeps_modify, neutral_credentials.
    - apply keeps_select_mode.
    - apply keeps_fetch_companies.
    - apply keeps_submit_crawl.
    - apply keeps_submit_prompt.
    - apply keeps_clear_chat. }
  apply (Hk (World s [])).
Qed.

Lemma exec_authenticate net s :
  (exists d, token_granted net [] s d
     /\ authenticated (exec net OpAuthenticate s) = true
     /\ access_token (exec net OpAuthenticate s)
        = default JNull (dict_lookup "access" d))
  \/ (authenticated (exec net OpAuthenticate s) = false
      /\ access_token (exec net OpAuthenticate s) = access_token s).
Proof.
  unfold exec. cbn [run_op]. unfold bind, ret.
  destruct (token_granted_dec net [] s) as [[d Hg] | Hno].
  - left. exists d. split; [exact Hg |].
    destruct (authenticate_granted net s [] d Hg) as (cs & evs & Heq & _).
    rewrite Heq. split; reflexivity.
  - right. destruct (authenticate_refused net s [] Hno) as (msg & Heq).
    rewrite Heq. split; reflexivity.
Qed.

Lemma nonempty_token_not_null t : nonempty_token t -> t <> JNull.
Proof. intros H ->. exact H. Qed.

Lemma authenticated_token_invariant s :
  reachable_when token_contract s ->
  authenticated s = true -> nonempty_token (access_token s).
Proof.
  induction 1 as [u p b | net o s Hc Hr IH]; intros Ha.
  - discriminate.
  - destruct o;
      try (match goal with
           | |- context [exec net ?o s] =>
               destruct (exec_other_auth net o s) as [H1 H2];
               [discriminate | rewrite H2; apply IH; congruence]
           end).
    destruct (exec_authenticate net s) as [(d & Hg & _ & ->) | (Hf & _)].
    + apply (token_contract_nonempty net [] s d Hc Hg).
    + congruence.
Qed.

(** C4, as written, fails in both directions: [refused_later] holds a token
    and is not authenticated; [tokenless] is authenticated and holds none. *)
Lemma token_iff_authenticated_fails :
  (reachable refused_later
   /\ ~ (access_token refused_later <> JNull
         <-> authenticated refused_later = true))
  /\ (reachable tokenless
      /\ ~ (access_token tokenless <> JNull
            <-> authenticated tokenless = true)).
Proof.
  split; split.
  - apply reach_step; [exact I |]. apply reach_step; [exact I |].
    apply reach_init.
  - intros [H _]. assert (Hf : authenticated refused_later = true).
    { apply H. discriminate. }
    vm_compute in Hf. discriminate.
  - apply reach_step; [exact I |]. apply reach_init.
  - intros [_ H]. apply H; reflexivity.
Qed.

(** C4 (amended): in every session reached from a fresh one by user actions,
    against backends that honour the token contract, [authenticated] implies
    that a token is present.  (The converse is not an invariant: a refused
    attempt clears [authenticated] only.) *)
Theorem authenticated_implies_token s :
  reachable_when token_contract s ->
  authenticated s = true ->
  access_token s <> JNull.
Proof.
  intros Hr Ha. apply nonempty_token_not_null.
  apply authenticated_token_invariant; assumption.
Qed.

Lemma authenticated_implies_token_witness : access_token logged_in <> JNull.
Proof.
  apply (authenticated_implies_token logged_in).
  - apply reach_step; [apply net_accept_contract | apply reach_init].
  - reflexivity.
Defined.

(** ** Strings: [strip] is idempotent *)

Lemma lstrip_unfold s :
  lstrip s = match space_prefix s with Some r => lstrip r | None => s end.
Proof.
  destruct s as [|c1 r1]; [reflexivity |]. cbn [space_prefix].
  destruct (isspace c1) eqn:H1; [cbn [lstrip]; rewrite H1; reflexivity |].
  destruct r1 as [|c2 r2]; [cbn [lstrip]; rewrite H1; reflexivity |].
  destruct (isspace2 c1 c2) eqn:H2;
    [cbn [lstrip]; rewrite H1, H2; reflexivity |].
  destruct r2 as [|c3 r3]; [cbn [lstrip]; rewrite H1, H2; reflexivity |].
  destruct (isspace3 c1 c2 c3) eqn:H3;
    cbn [lstrip]; rewrite H1, H2, H3; reflexivity.
Qed.

Lemma space_prefix_shorter s r :
  space_prefix s = Some r -> (String.length r < String.length s)%nat.
Proof.
  destruct s as [|c1 [|c2 [|c3 r3]]]; cbn [space_prefix];
    repeat match goal with |- context [if ?b then _ else _] => destruct b end;
    intros H; try discriminate; injection H as <-; cbn; lia.
Qed.

Lemma lstrip_no_space s : space_prefix (lstrip s) = None.
Proof.
  induction s as [s IH] using (induction_ltof1 _ String.length).
  unfold ltof in IH. rewrite lstrip_unfold.
  destruct (space_prefix s) as [r|] eqn:Hs; [| exact Hs].
  apply IH, space_prefix_shorter, Hs.
Qed.

Lemma lstrip_idem s : lstrip (lstrip s) = lstrip s.
Proof. rewrite (lstrip_unfold (lstrip s)), lstrip_no_space. reflexivity. Qed.

Lemma rstrip_cons c r :
  rstrip (String c r)
  = if blank (String c r) then EmptyString else String c (rstrip r).
Proof. reflexivity. Qed.

Lemma append_cons c a b : String c a +:+ b = String c (a +:+ b).
Proof. reflexivity. Qed.

Lemma space_prefix_app a b r :
  space_prefix a = Some r -> space_prefix (a +:+ b) = Some (r +:+ b).
Proof.
  destruct a as [|c1 [|c2 [|c3 r3]]]; cbn [space_prefix];
    rewrite ?append_cons; cbn [space_prefix];
    repeat match goal with |- context [if ?b then _ else _] => destruct b end;
    intros H; try discriminate; injection H as <-;
    rewrite ?append_cons; reflexivity.
Qed.

Lemma lstrip_app_blank a b : lstrip a = "" -> lstrip (a +:+ b) = lstrip b.
Proof.
  induction a as [a IH] using (induction_ltof1 _ String.length).
  unfold ltof in IH. intros Ha.
  destruct a as [|c a']; [reflexivity |].
  rewrite lstrip_unfold in Ha.
  destruct (space_prefix (String c a')) as [r|] eqn:Hs; [| discriminate].
  rewrite lstrip_unfold, (space_prefix_app _ b _ Hs).
  apply IH; [apply space_prefix_shorter, Hs | exact Ha].
Qed.

Lemma rstrip_split s : exists w, s = rstrip s +:+ w /\ lstrip w = "".
Proof.
  induction s as [|c r (w & Hr & Hw)].
  - exists "". split; reflexivity.
  - rewrite rstrip_cons. unfold blank.
    destruct (lstrip (String c r)) eqn:Hb.
    + exists (String c r). split; [reflexivity | exact Hb].
    + exists w. rewrite append_cons, <- Hr. split; [reflexivity | exact Hw].
Qed.

Lemma blank_cons_rstrip c r :
  blank (String c r) = false -> blank (String c (rstrip r)) = false.
Proof.
  intros Hb. destruct (blank (String c (rstrip r))) eqn:Hb'; [| reflexivity].
  destruct (rstrip_split r) as (w & Hr & Hw).
  assert (Hl : lstrip (String c (rstrip r)) = "").
  { unfold blank in Hb'. destruct (lstrip _); [reflexivity | discriminate]. }
  pose proof (lstrip_app_blank _ w Hl) as Happ.
  rewrite append_cons, <- Hr, Hw in Happ.
  unfold blank in Hb. rewrite Happ in Hb. discriminate.
Qed.

Lemma rstrip_fixed s : rstrip s = s <-> no_blank_tail s.
Proof.
  induction s as [|c r IH]; [split; reflexivity || trivial |].
  rewrite rstrip_cons. cbn [no_blank_tail].
  destruct (blank (String c r)); split.
  - discriminate.
  - intros [H _]. discriminate.
  - intros H. injection H as H. split; [reflexivity | apply IH, H].
  - intros [_ H]. f_equal. apply IH, H.
Qed.

Lemma rstrip_no_blank_tail s : no_blank_tail (rstrip s).
Proof.
  induction s as [|c r IH]; [exact I |].
  rewrite rstrip_cons. destruct (blank (String c r)) eqn:Hb; [exact I |].
  split; [apply blank_cons_rstrip, Hb | exact IH].
Qed.

Lemma rstrip_idem s : rstrip (rstrip s) = rstrip s.
Proof. apply rstrip_fixed, rstrip_no_blank_tail. Qed.

Lemma no_blank_tail_rest s r :
  space_prefix s = Some r -> no_blank_tail s -> no_blank_tail r.
Proof.
  destruct s as [|c1 [|c2 [|c3 r3]]]; cbn [space_prefix no_blank_tail];
    repeat match goal with |- context [if ?b then _ else _] => destruct b end;
    intros H; try discriminate; injection H as <-; cbn [no_blank_tail];
    tauto.
Qed.

Lemma rstrip_lstrip s : rstrip s = s -> rstrip (lstrip s) = lstrip s.
Proof.
  intros H. apply rstrip_fixed. apply rstrip_fixed in H. revert H.
  induction s as [s IH] using (induction_ltof1 _ String.length).
  unfold ltof in IH. intros H. rewrite lstrip_unfold.
  destruct (space_prefix s) as [r|] eqn:Hs; [| exact H].
  apply IH; [apply space_prefix_shorter, Hs |].
  apply (no_blank_tail_rest s r Hs H).
Qed.

Lemma strip_idem s : strip (strip s) = strip s.
Proof.
  unfold strip.
  rewrite (rstrip_lstrip (rstrip s) (rstrip_idem s)).
  apply lstrip_idem.
Qed.

Lemma str_truthy_nonempty s : str_truthy s = true <-> s <> "".
Proof.
  unfold str_truthy. destruct (String.eqb_spec s ""); cbn; split;
    congruence.
Qed.

Lemma parse_domains_clean text :
  Forall (fun d => d <> "" /\ strip d = d) (parse_domains text).
Proof.
  unfold parse_domains. rewrite Forall_map. apply List.Forall_forall.
  intros d Hd. apply List.filter_In in Hd.
  destruct Hd as [_ Ht]. cbn.
  split; [apply str_truthy_nonempty, Ht | apply strip_idem].
Qed.

(** The parsing of the domains text on small inputs. *)
Example split_trailing_newline :
  split newline (two_lines "a.com" "") = ["a.com"; ""].
Proof. reflexivity. Qed.

Example strip_both_ends : strip "  a.com " = "a.com".
Proof. reflexivity. Qed.

Example parse_domains_blank_lines :
  parse_domains (two_lines " a.com " (two_lines "   " "b.com"))
  = ["a.com"; "b.com"].
Proof. reflexivity. Qed.

Example parse_domains_only_blanks : parse_domains (two_lines " " "") = [].
Proof. reflexivity. Qed.

Example strip_unicode_space :
  strip (no_break_space +:+ "a.com" +:+ em_space +:+ " ") = "a.com".
Proof. reflexivity. Qed.

Example strip_inner_space_kept :
  strip ("a" +:+ no_break_space +:+ "b") = "a" +:+ no_break_space +:+ "b".
Proof. reflexivity. Qed.

Example parse_domains_no_break_space : parse_domains no_break_space = [].
Proof. reflexivity. Qed.

(** ** The crawl request client *)

#[local] Instance no_posts_preorder : PreOrder no_posts.
Proof.
  split.
  - intros w. reflexivity.
  - intros a b c H1 H2. unfold no_posts in *. congruence.
Qed.

Lemma quiet_ui k c : frames no_posts (ui k c).
Proof.
  intros w. unfold no_posts. cbn. rewrite posts_app. cbn.
  apply app_nil_r.
Qed.

Lemma quiet_ui_str k msg : frames no_posts (ui_str k msg).
Proof. apply quiet_ui. Qed.

Lemma quiet_modify f : frames no_posts (modify f).
Proof. intros w. reflexivity. Qed.

#[local] Hint Resolve quiet_ui quiet_ui_str quiet_modify : frames.

(** A [try] block that posts one request and then only talks to the user
    or the session has sent exactly that request, however it ends. *)
Lemma posts_try_post {A} net req (k : response -> M A) (h : exn -> M A) w :
  (forall r, frames no_posts (k r)) ->
  (forall e, frames no_posts (h e)) ->
  posts (w_trace (snd (try_except (bind (post net req) k) h w)))
  = posts (w_trace w) ++ [req].
Proof.
  intros Hk Hh.
  assert (Hpost : posts (w_trace w ++ [EvPost req]) = posts (w_trace w) ++ [req]).
  { rewrite posts_app. reflexivity. }
  unfold try_except, bind, post.
  destruct (net (posts (w_trace w)) req) as [r|e].
  - specialize (Hk r (World (w_session w) (w_trace w ++ [EvPost req]))).
    destruct (k r _) as [[a|e] w1]; cbn in *.
    + rewrite Hk. exact Hpost.
    + rewrite (Hh e w1), Hk. exact Hpost.
  - rewrite (Hh e _). exact Hpost.
Qed.

(** C5: when the domains text is empty, or the crawl type is "Custom
    Prompt" and the prompt is empty, the submit handler shows one error,
    leaves the session as it is and sends nothing. *)
Theorem submit_crawl_rejects_locally net f s tr :
  company_domains f = ""
  \/ (form_crawl_type f = CustomPrompt /\ prompt_area f = "") ->
  (exists msg,
     submit_crawl net f (World s tr)
     = (Ok tt, World s (tr ++ [EvUi UiError (JStr msg)])))
  /\ posts (w_trace (snd (submit_crawl net f (World s tr)))) = posts tr.
Proof.
  intros Hbad.
  assert (Hex : exists msg,
     submit_crawl net f (World s tr)
     = (Ok tt, World s (tr ++ [EvUi UiError (JStr msg)]))).
  { unfold submit_crawl, bind, get_session, ui_str, ui, emit.
    cbn. destruct (authenticated s); cbn; [| eexists; reflexivity].
    destruct Hbad as [He | [Hc Hp]].
    - rewrite He. cbn. eexists; reflexivity.
    - destruct (str_truthy (company_domains f)); cbn;
        [| eexists; reflexivity].
      unfold custom_prompt. rewrite Hc, Hp. cbn. eexists; reflexivity. }
  split; [exact Hex |].
  destruct Hex as [msg ->]. cbn. rewrite posts_app. cbn. apply app_nil_r.
Qed.

Lemma submit_crawl_rejects_locally_witness :
  sent (submit_crawl net_accept (lite_form "")) logged_in = []
  /\ sent (submit_crawl net_accept (custom_form "x.com" "")) logged_in = [].
Proof.
  split.
  - apply (submit_crawl_rejects_locally net_accept (lite_form "") logged_in []).
    left. reflexivity.
  - apply (submit_crawl_rejects_locally net_accept (custom_form "x.com" "")
             logged_in []).
    right. split; reflexivity.
Defined.

Lemma submit_crawl_sent net f s tr :
  posts (w_trace (snd (submit_crawl net f (World s tr))))
  = posts tr ++
    (if crawl_accepted s f
     then [crawl_request s f (parse_domains (company_domains f))]
     else []).
Proof.
  assert (Hquiet : forall msg,
    posts (w_trace (snd (ui_str UiError msg (World s tr))))
    = posts tr ++ []).
  { intros msg. rewrite app_nil_r. apply (quiet_ui_str UiError msg). }
  unfold submit_crawl, crawl_accepted, bind at 1, get_session.
  cbn [w_session].
  destruct (authenticated s); cbn [negb andb]; [| apply Hquiet].
  destruct (str_truthy (company_domains f)); cbn [negb andb]; [| apply Hquiet].
  destruct (is_custom (form_crawl_type f) && negb (opt_truthy (custom_prompt f)));
    cbn [negb andb]; [apply Hquiet |].
  cbv zeta.
  destruct (parse_domains (company_domains f)) as [|d l] eqn:Hd;
    [apply Hquiet |].
  apply (posts_try_post net _ _ _ (World s tr)).
  - intros r. repeat frames_step.
    apply frames_writes; [typeclasses eauto | apply quiet_ui_str].
  - intros e. repeat frames_step.
Qed.

(** C6, as written, fails on the deduplication: a domain entered twice is
    sent twice. *)
Lemma crawl_domains_not_deduplicated :
  sent (submit_crawl net_accept (lite_form (two_lines "x.com" "x.com")))
       logged_in
  = [crawl_request logged_in (lite_form (two_lines "x.com" "x.com"))
       ["x.com"; "x.com"]]
  /\ data (crawl_request logged_in (lite_form (two_lines "x.com" "x.com"))
             ["x.com"; "x.com"])
     = Some (JObj [("company_domains", JArr [JStr "x.com"; JStr "x.com"]);
                   ("lite_crawl", JBool true)])
  /\ ~ NoDup ["x.com"; "x.com"].
Proof.
  split; [| split].
  - vm_compute. reflexivity.
  - reflexivity.
  - intros H. apply NoDup_cons in H. destruct H as [H _].
    apply H. left.
Qed.

(** C6 (amended): every crawl request that is sent carries the lines of the
    domains text, trimmed, each non-empty, at least one, in the order in
    which they were entered (repetitions are kept); its payload is
    [{company_domains, lite_crawl}], followed by the "prompt" key exactly
    when the crawl type is "Custom Prompt" (its value is then the non-empty
    prompt).  In particular a lite crawl of the lines x.com and y.com sends
    [{company_domains: [x.com, y.com], lite_crawl: true}]. *)
Theorem crawl_payload_shape :
  (forall net f s req,
     In req (sent (submit_crawl net f) s) ->
     let domains := parse_domains (company_domains f) in
     domains <> []
     /\ Forall (fun d => d <> "" /\ strip d = d) domains
     /\ data req
        = Some (JObj ([("company_domains", JArr (map JStr domains));
                       ("lite_crawl", JBool (is_lite (form_crawl_type f)))]
                      ++ prompt_entry f))
     /\ (form_crawl_type f = CustomPrompt -> prompt_area f <> "")
     /\ (In "prompt" (dict_keys (crawl_payload f domains))
         <-> form_crawl_type f = CustomPrompt))
  /\ (forall net s,
        authenticated s = true ->
        map data (sent (submit_crawl net (lite_form (two_lines "x.com" "y.com")))
                       s)
        = [Some (JObj [("company_domains", JArr [JStr "x.com"; JStr "y.com"]);
                       ("lite_crawl", JBool true)])]).
Proof.
  split.
  - intros net f s req Hin domains.
    unfold sent, run in Hin. rewrite submit_crawl_sent in Hin. cbn in Hin.
    destruct (crawl_accepted s f) eqn:Hacc; [| destruct Hin].
    destruct Hin as [<- | []].
    unfold crawl_accepted in Hacc.
    apply andb_prop in Hacc as [Hacc Hne].
    apply andb_prop in Hacc as [_ Hprompt].
    assert (Hpayload : crawl_payload f domains
              = [("company_domains", JArr (map JStr domains));
                 ("lite_crawl", JBool (is_lite (form_crawl_type f)))]
                ++ prompt_entry f
              /\ (form_crawl_type f = CustomPrompt -> prompt_area f <> "")).
    { unfold crawl_payload, prompt_entry, custom_prompt in *.
      destruct (form_crawl_type f); cbn in *.
      - split; [reflexivity | discriminate].
      - destruct (str_truthy (prompt_area f)) eqn:Hp; [| discriminate].
        split; [reflexivity |].
        intros _. apply str_truthy_nonempty, Hp. }
    destruct Hpayload as [Hpayload Hcustom].
    split; [| split; [| split; [| split]]].
    + subst domains. destruct (parse_domains (company_domains f));
        [discriminate | discriminate].
    + apply parse_domains_clean.
    + unfold crawl_request. cbn [data]. fold domains. rewrite Hpayload.
      reflexivity.
    + exact Hcustom.
    + rewrite Hpayload. unfold prompt_entry.
      destruct (form_crawl_type f); cbn.
      * split; [intros [H | [H | []]]; discriminate | discriminate].
      * split; [reflexivity | intros _; right; right; left; reflexivity].
  - intros net s Ha. unfold sent, run. rewrite submit_crawl_sent.
    unfold crawl_accepted. rewrite Ha. reflexivity.
Qed.

Lemma crawl_payload_shape_witness :
  data (crawl_request logged_in (custom_form " x.com " "Find the team page")
          (parse_domains " x.com "))
  = Some (JObj [("company_domains", JArr [JStr "x.com"]);
                ("lite_crawl", JBool false);
                ("prompt", JStr "Find the team page")])
  /\ map data (sent (submit_crawl net_accept
                       (lite_form (two_lines "x.com" "y.com"))) logged_in)
     = [Some (JObj [("company_domains", JArr [JStr "x.com"; JStr "y.com"]);
                    ("lite_crawl", JBool true)])].
Proof.
  split.
  - apply (proj1 crawl_payload_shape net_accept
             (custom_form " x.com " "Find the team page") logged_in).
    left. reflexivity.
  - apply (proj2 crawl_payload_shape net_accept logged_in). reflexivity.
Defined.

(** ** The QA request client *)

Lemma bind_modify {B} f (k : unit -> M B) w :
  bind (modify f) k w = k tt (World (f (w_session w)) (w_trace w)).
Proof. reflexivity. Qed.

Lemma bind_ui_str {B} kind msg (k : unit -> M B) w :
  bind (ui_str kind msg) k w
  = k tt (World (w_session w) (w_trace w ++ [EvUi kind (JStr msg)])).
Proof. reflexivity. Qed.

Lemma bind_get {B} (k : session -> M B) w :
  bind get_session k w = k (w_session w) w.
Proof. reflexivity. Qed.

Lemma submit_prompt_sent net cfg dom now prompt s tr :
  posts (w_trace (snd (submit_prompt net cfg dom now prompt (World s tr))))
  = posts tr ++
    (if str_truthy prompt then [qa_request s cfg dom prompt] else []).
Proof.
  unfold submit_prompt. destruct (str_truthy prompt).
  - unfold append_message at 1.
    rewrite bind_modify, !bind_ui_str, bind_get. cbn [w_session w_trace].
    rewrite posts_try_post.
    + cbn [w_trace]. rewrite !posts_app. cbn. rewrite !app_nil_r.
      reflexivity.
    + intros r. unfold append_message. repeat frames_step.
    + intros e. unfold append_message. repeat frames_step.
  - cbn. rewrite app_nil_r. reflexivity.
Qed.

(** C7, as written, fails when "present" is the presence of the key: with
    the reranker off the request still carries the key [rerank_top_n], with
    the value [None]. *)
Lemma rerank_key_sent_when_off :
  ~ rerank_key_iff_reranker reranker_off "What does Acme do?"
  /\ dict_lookup "rerank_top_n"
       (vectorstore_kwargs_of (qa_dict reranker_off "What does Acme do?"))
     = Some JNull
  /\ map data (sent (submit_prompt net_answer reranker_off "acme.com"
                       "2025-01-01T00:00:00" "What does Acme do?") logged_in)
     = [Some (qa_payload "acme.com"
                (qa_dict reranker_off "What does Acme do?"))].
Proof.
  split; [| split].
  - intros [H _]. assert (Hoff : use_reranker reranker_off = true).
    { apply H. right. right. left. reflexivity. }
    discriminate.
  - reflexivity.
  - unfold sent, run. rewrite submit_prompt_sent. reflexivity.
Qed.

(** C7 (amended): the payload of every QA request nests the query, the
    sub-object [llm_kwargs] with the model name and the temperature, the
    sub-object [vectorstore_kwargs] with the three keys [k], [use_reranker]
    and [rerank_top_n], and the recursion limit.  The key [rerank_top_n]
    is always there; its value is the number of the widget exactly when the
    reranker is on, and [None] otherwise. *)
Theorem qa_payload_shape net cfg dom now prompt s req :
  In req (sent (submit_prompt net cfg dom now prompt) s) ->
  exists llm vs,
    data req
    = Some (JObj [("company_domain", JStr dom);
                  ("qa_dict",
                    JObj [("query", JStr prompt);
                          ("llm_kwargs", JObj llm);
                          ("vectorstore_kwargs", JObj vs);
                          ("recursion_limit", JInt (recursion_limit cfg))])])
    /\ llm = [("model_name", JStr (selected_model cfg));
              ("temperature", JFloat (temperature cfg))]
    /\ dict_keys vs = ["k"; "use_reranker"; "rerank_top_n"]
    /\ dict_lookup "k" vs = Some (JInt (k_value cfg))
    /\ dict_lookup "use_reranker" vs = Some (JBool (use_reranker cfg))
    /\ dict_lookup "rerank_top_n" vs
       = Some (if use_reranker cfg then JInt (rerank_top_n cfg) else JNull)
    /\ (default JNull (dict_lookup "rerank_top_n" vs) <> JNull
        <-> use_reranker cfg = true).
Proof.
  intros Hin. unfold sent, run in Hin. rewrite submit_prompt_sent in Hin.
  destruct (str_truthy prompt); [| destruct Hin].
  destruct Hin as [<- | []].
  eexists _, _. split; [reflexivity |].
  repeat split.
  - cbn. destruct (use_reranker cfg); [reflexivity | congruence].
  - intros ->. cbn. discriminate.
Qed.

Lemma qa_payload_shape_witness :
  exists llm vs,
    data (qa_request logged_in default_config "acme.com" "What does Acme do?")
    = Some (JObj [("company_domain", JStr "acme.com");
                  ("qa_dict",
                    JObj [("query", JStr "What does Acme do?");
                          ("llm_kwargs", JObj llm);
                          ("vectorstore_kwargs", JObj vs);
                          ("recursion_limit", JInt 25)])])
    /\ dict_lookup "rerank_top_n" vs = Some (JInt 10).
Proof.
  destruct (qa_payload_shape net_accept default_config "acme.com"
              "2025-01-01T00:00:00" "What does Acme do?" logged_in
              (qa_request logged_in default_config "acme.com"
                 "What does Acme do?"))
    as (llm & vs & Hd & _ & _ & _ & _ & Hn & _).
  - left. reflexivity.
  - exists llm, vs. split; [exact Hd | exact Hn].
Defined.

(** ** The chat history *)

(** C9: a submitted (non-empty) prompt appends exactly two entries to the
    chat history: first [{"role": "user", "content": prompt}], then an
    entry whose role is "assistant"; this whether the QA call succeeds, is
    answered with another status or raises.  The history grows by two, the
    entries that were there stay in their places, and no other field of the
    session changes. *)
Theorem submit_prompt_appends_two net cfg dom now prompt s tr :
  prompt <> "" ->
  let s' :=
    w_session (snd (submit_prompt net cfg dom now prompt (World s tr))) in
  (exists content rest,
     messages s'
     = messages s ++
       [JObj [("role", JStr "user"); ("content", JStr prompt)];
        JObj (("role", JStr "assistant") :: ("content", content) :: rest)])
  /\ length (messages s') = (length (messages s) + 2)%nat
  /\ take (length (messages s)) (messages s') = messages s
  /\ (app_mode s', authenticated s', access_token s', username s',
      password s', base_url s', companies s')
     = (app_mode s, authenticated s, access_token s, username s,
        password s, base_url s, companies s).
Proof.
  intros Hp. apply str_truthy_nonempty in Hp.
  assert (H : exists content rest,
    w_session (snd (submit_prompt net cfg dom now prompt (World s tr)))
    = set_messages
        (messages s ++
         [JObj [("role", JStr "user"); ("content", JStr prompt)];
          JObj (("role", JStr "assistant") :: ("content", content) :: rest)])
        s).
  { unfold submit_prompt. rewrite Hp.
    unfold append_message at 1.
    rewrite bind_modify, !bind_ui_str, bind_get. cbn [w_session w_trace].
    unfold try_except, bind, post, lift, append_message, modify, ui_str, ui,
      emit, error_message, user_message.
    cbn [w_session w_trace].
    assert (Hs : forall reply,
      set_messages
        (messages
           (set_messages
              (messages s ++
               [JObj [("role", JStr "user"); ("content", JStr prompt)]]) s)
           ++ [reply])
        (set_messages
           (messages s ++
            [JObj [("role", JStr "user"); ("content", JStr prompt)]]) s)
      = set_messages
          (messages s ++
           [JObj [("role", JStr "user"); ("content", JStr prompt)]; reply])
          s).
    { intros reply. unfold set_messages. cbn. rewrite <- app_assoc.
      reflexivity. }
    destruct (net _ _) as [r|e]; cbn.
    - destruct (status_code r =? 200); cbn.
      + destruct (body_json r) as [v|e]; cbn.
        * destruct v; cbn; eexists _, _; apply Hs.
        * eexists _, _; apply Hs.
      + eexists _, _; apply Hs.
    - eexists _, _; apply Hs. }
  destruct H as (content & rest & H). cbv zeta. rewrite H.
  cbn [messages set_messages app_mode authenticated access_token username
       password base_url companies].
  split; [exists content, rest; reflexivity |].
  split; [rewrite length_app; reflexivity |].
  split; [apply take_app_length | reflexivity].
Qed.

Lemma submit_prompt_appends_two_witness :
  (exists content rest,
     messages (session_after (submit_prompt net_answer default_config
                                "acme.com" "2025-01-01T00:00:00"
                                "What does Acme do?") logged_in)
     = [JObj [("role", JStr "user"); ("content", JStr "What does Acme do?")];
        JObj (("role", JStr "assistant") :: ("content", content) :: rest)])
  /\ length (messages (session_after (submit_prompt net_reject default_config
                                        "acme.com" "2025-01-01T00:00:00"
                                        "What does Acme do?") asked_once))
     = 4%nat.
Proof.
  split.
  - apply (submit_prompt_appends_two net_answer default_config "acme.com"
             "2025-01-01T00:00:00" "What does Acme do?" logged_in []).
    discriminate.
  - apply (submit_prompt_appends_two net_reject default_config "acme.com"
             "2025-01-01T00:00:00" "What does Acme do?" asked_once []).
    discriminate.
Defined.

(** ** The batch QA orchestrator *)

Lemma gather_loop_ok {A} (vals : list A) sched slots :
  gather_loop ((fun a => Some (Ok a)) <$> vals) sched slots
  = Ok (fill vals sched slots).
Proof.
  revert slots. induction sched as [|i sched IH]; intros slots.
  - reflexivity.
  - cbn [gather_loop fill foldl]. rewrite list_lookup_fmap.
    destruct (vals !! i) as [a|]; cbn; apply IH.
Qed.

Lemma fill_lookup {A} (vals : list A) sched slots k :
  length slots = length vals ->
  fill vals sched slots !! k
  = if decide (k ∈ sched) then Some <$> vals !! k else slots !! k.
Proof.
  revert slots. induction sched as [|i sched IH]; intros slots Hlen.
  - cbn. destruct (decide (k ∈ [])) as [Hin|_]; [| reflexivity].
    apply elem_of_nil in Hin. destruct Hin.
  - cbn [fill foldl].
    set (slots' := match vals !! i with
                   | Some a => <[i := Some a]> slots
                   | None => slots
                   end).
    assert (Hlen' : length slots' = length vals).
    { subst slots'. destruct (vals !! i); [rewrite length_insert |]; exact Hlen. }
    change (fill vals sched slots' !! k
            = if decide (k ∈ i :: sched) then Some <$> vals !! k
              else slots !! k).
    rewrite (IH slots' Hlen').
    destruct (decide (k ∈ sched)) as [Hin|Hnin].
    + rewrite decide_True; [reflexivity | right; exact Hin].
    + destruct (decide (k = i)) as [->|Hne].
      * rewrite decide_True; [| left]. subst slots'.
        destruct (vals !! i) as [a|] eqn:Hv; cbn.
        -- apply list_lookup_insert_eq. rewrite Hlen.
           apply lookup_lt_Some in Hv. exact Hv.
        -- apply lookup_ge_None. rewrite Hlen.
           apply lookup_ge_None in Hv. exact Hv.
      * rewrite decide_False.
        -- subst slots'. destruct (vals !! i); [| reflexivity].
           apply list_lookup_insert_ne. congruence.
        -- intros Hin. apply elem_of_cons in Hin.
           destruct Hin as [Heq | Hin]; [congruence | contradiction].
Qed.

Lemma all_filled_Some {A} (vals : list A) :
  all_filled (Some <$> vals) = Some vals.
Proof.
  induction vals as [|a vals IH]; [reflexivity |].
  cbn. cbn in IH. rewrite IH. reflexivity.
Qed.

(** When no awaitable raises and each of them finishes, [gather] returns
    their results in the order of the awaitables, whatever the order in
    which they finish. *)
Lemma gather_ok {A} (vals : list A) sched :
  (forall k, (k < length vals)%nat -> k ∈ sched) ->
  gather ((fun a => Some (Ok a)) <$> vals) sched = Some (Ok vals).
Proof.
  intros Hcover. unfold gather. rewrite gather_loop_ok, length_fmap.
  assert (Hfill : fill vals sched (replicate (length vals) None)
                  = Some <$> vals).
  { apply list_eq. intros k.
    rewrite fill_lookup by apply length_replicate.
    destruct (decide (k ∈ sched)) as [Hin|Hnin].
    - rewrite list_lookup_fmap. reflexivity.
    - rewrite list_lookup_fmap.
      destruct (decide (k < length vals)%nat) as [Hlt|Hge].
      + exfalso. apply Hnin, Hcover, Hlt.
      + rewrite (proj2 (lookup_ge_None vals k)) by lia.
        apply lookup_ge_None. rewrite length_replicate. lia. }
  rewrite Hfill, all_filled_Some. reflexivity.
Qed.

(** An awaitable that raises, once it finishes, makes [gather] raise (its
    exception, or that of one that finished before it). *)
Lemma gather_loop_raises {A} (outs : list (option (result A))) sched i e :
  i ∈ sched ->
  outs !! i = Some (Some (Raise e)) ->
  forall slots, exists e', gather_loop outs sched slots = Raise e'.
Proof.
  intros Hin Hi. induction sched as [|k sched IH]; intros slots.
  - apply elem_of_nil in Hin. destruct Hin.
  - cbn [gather_loop].
    destruct (decide (k = i)) as [->|Hne].
    + rewrite Hi. eexists; reflexivity.
    + assert (Hin' : i ∈ sched).
      { apply elem_of_cons in Hin. destruct Hin; [congruence | assumption]. }
      destruct (outs !! k) as [[[a|e']|]|].
      * apply (IH Hin').
      * eexists; reflexivity.
      * apply (IH Hin').
      * apply (IH Hin').
Qed.

Lemma gather_raises {A} (outs : list (option (result A))) sched i e :
  i ∈ sched ->
  outs !! i = Some (Some (Raise e)) ->
  exists e', gather outs sched = Some (Raise e').
Proof.
  intros Hin Hi. unfold gather.
  destruct (gather_loop_raises outs sched i e Hin Hi
              (replicate (length outs) None)) as [e' ->].
  exists e'. reflexivity.
Qed.

Lemma qa_entry_Ok out v :
  qa_entry out = Ok v ->
  out = Ok (response_of out) /\ entry_value out = v.
Proof.
  unfold entry_value. intros H. rewrite H. destruct out as [r|e].
  - split; reflexivity.
  - discriminate.
Qed.

Lemma collect_results_ok responses acc :
  Forall (fun r => exists v, qa_entry (Ok r) = Ok v) responses ->
  collect_results responses acc
  = Ok (acc ++ ((fun r => entry_value (Ok r)) <$> responses)).
Proof.
  intros Hall. revert acc.
  induction Hall as [|r rs [v Hv] _ IH]; intros acc.
  - cbn. rewrite app_nil_r. reflexivity.
  - cbn [collect_results fmap list_fmap]. unfold entry_value at 1.
    cbn [qa_entry] in *.
    destruct (status_code r =? 200).
    + rewrite Hv. rewrite IH, <- app_assoc. reflexivity.
    + rewrite IH, <- app_assoc. reflexivity.
Qed.

(** One domain: when every request is answered, the row holds the entries
    of the questions in their order. *)
Lemma fetch_company_qa_responses_ok s answer sched domain qa_list token :
  (forall k, (k < length qa_list)%nat -> k ∈ sched) ->
  (forall j qa, qa_list !! j = Some qa ->
     exists v, qa_entry (answer j (batch_request (base_url s) token domain qa))
               = Ok v) ->
  fetch_company_qa_responses s answer sched domain qa_list token
  = Some (Ok (imap (fun j qa =>
                      entry_value
                        (answer j (batch_request (base_url s) token domain qa)))
                   qa_list)).
Proof.
  intros Hcover Hans. unfold fetch_company_qa_responses.
  set (resps :=
         imap (fun j qa =>
                 response_of
                   (answer j (batch_request (base_url s) token domain qa)))
              qa_list).
  assert (Htasks :
    imap (fun j qa =>
            Some (answer j (batch_request (base_url s) token domain qa)))
         qa_list
    = (fun a => Some (Ok a)) <$> resps).
  { apply list_eq. intros j. subst resps.
    rewrite list_lookup_fmap, !list_lookup_imap.
    destruct (qa_list !! j) as [qa|] eqn:Hq; [| reflexivity]. cbn.
    destruct (Hans j qa Hq) as [v Hv].
    destruct (qa_entry_Ok _ _ Hv) as [Heq _]. rewrite <- Heq. reflexivity. }
  rewrite Htasks, gather_ok.
  - rewrite collect_results_ok.
    + f_equal. f_equal. cbn [app]. apply list_eq. intros j. subst resps.
      rewrite list_lookup_fmap, !list_lookup_imap.
      destruct (qa_list !! j) as [qa|] eqn:Hq; [| reflexivity]. cbn.
      destruct (Hans j qa Hq) as [v Hv].
      destruct (qa_entry_Ok _ _ Hv) as [Heq _]. rewrite <- Heq. reflexivity.
    + apply Forall_lookup. intros j r Hr. subst resps.
      rewrite list_lookup_imap in Hr.
      destruct (qa_list !! j) as [qa|] eqn:Hq; [| discriminate].
      cbn in Hr. injection Hr as <-.
      destruct (Hans j qa Hq) as [v Hv]. exists v.
      destruct (qa_entry_Ok _ _ Hv) as [Heq _]. rewrite <- Heq. exact Hv.
  - intros k Hk. apply Hcover. subst resps.
    rewrite length_imap in Hk. exact Hk.
Qed.

Lemma perm_seq_cover (sched : list nat) n k :
  sched ≡ₚ seq 0 n -> (k < n)%nat -> k ∈ sched.
Proof.
  intros Hp Hk. rewrite Hp. apply elem_of_seq. lia.
Qed.

(** The order of the results: for all domains and questions, and whatever
    the orders in which the requests ([inner]) and the per-domain batches
    ([outer]) finish, when every request is answered (with a JSON body if
    the status is 200) the batch returns the matrix of the entries: one row
    per domain in the order of the domains, one entry per question in the
    order of the questions. *)
Theorem fetch_qa_responses_ordered s net inner outer domains_list qa_list :
  outer ≡ₚ seq 0 (length domains_list) ->
  (forall i, (i < length domains_list)%nat ->
             inner i ≡ₚ seq 0 (length qa_list)) ->
  (forall i j domain qa,
     domains_list !! i = Some domain -> qa_list !! j = Some qa ->
     exists v,
       qa_entry (net i j (batch_request (base_url s) (access_token s)
                            domain qa)) = Ok v) ->
  exists results,
    fetch_qa_responses s net inner outer domains_list qa_list
    = Some (Ok results)
    /\ (fun row : list json => Ok <$> row) <$> results
       = answer_matrix s net domains_list qa_list
    /\ length results = length domains_list
    /\ Forall (fun row => length row = length qa_list) results.
Proof.
  intros Houter Hinner Hans.
  set (row := fun (i : nat) (domain : string) =>
         imap (fun j qa =>
                 entry_value (net i j (batch_request (base_url s)
                                         (access_token s) domain qa)))
              qa_list).
  exists (imap row domains_list).
  assert (Htasks :
    imap (fun i domain =>
            fetch_company_qa_responses s (net i) (inner i) domain qa_list
              (access_token s)) domains_list
    = (fun a => Some (Ok a)) <$> imap row domains_list).
  { apply list_eq. intros i.
    rewrite list_lookup_fmap, !list_lookup_imap.
    destruct (domains_list !! i) as [domain|] eqn:Hd; [| reflexivity]. cbn.
    rewrite fetch_company_qa_responses_ok; [reflexivity | |].
    - intros k Hk. apply (perm_seq_cover _ (length qa_list)); [| exact Hk].
      apply Hinner. apply lookup_lt_Some in Hd. exact Hd.
    - intros j qa Hq. apply (Hans i j domain qa Hd Hq). }
  split; [| split; [| split]].
  - unfold fetch_qa_responses. rewrite Htasks. apply gather_ok.
    intros k Hk. rewrite length_imap in Hk.
    apply (perm_seq_cover _ (length domains_list)); assumption.
  - unfold answer_matrix. apply list_eq. intros i.
    rewrite list_lookup_fmap, !list_lookup_imap.
    destruct (domains_list !! i) as [domain|] eqn:Hd; [| reflexivity]. cbn.
    f_equal. subst row. cbn. apply list_eq. intros j.
    rewrite list_lookup_fmap, !list_lookup_imap.
    destruct (qa_list !! j) as [qa|] eqn:Hq; [| reflexivity]. cbn.
    destruct (Hans i j domain qa Hd Hq) as [v Hv].
    destruct (qa_entry_Ok _ _ Hv) as [_ Hval]. rewrite Hval, Hv. reflexivity.
  - apply length_imap.
  - apply Forall_lookup. intros i r Hr. rewrite list_lookup_imap in Hr.
    destruct (domains_list !! i) as [domain|]; [| discriminate].
    cbn in Hr. injection Hr as <-. apply length_imap.
Qed.

Lemma fetch_qa_responses_ordered_witness :
  exists results,
    fetch_qa_responses logged_in net_grid (fun _ => [1; 0]%nat) [1; 0]%nat
      two_domains two_questions
    = Some (Ok results)
    /\ (fun row : list json => Ok <$> row) <$> results
       = [[Ok (answer_at 0 0); Ok (answer_at 0 1)];
          [Ok (answer_at 1 0); Ok (answer_at 1 1)]].
Proof.
  destruct (fetch_qa_responses_ordered logged_in net_grid
              (fun _ => [1; 0]%nat) [1; 0]%nat two_domains two_questions)
    as (results & Hrun & Hmatrix & _).
  - apply perm_swap.
  - intros i _. apply perm_swap.
  - intros i j domain qa _ _. eexists. reflexivity.
  - exists results. split; [exact Hrun | exact Hmatrix].
Defined.

(** A request answered with another status than 200 leaves the fixed error
    entry at its position; the entries around it are the answers. *)
Lemma non_200_is_an_entry :
  fetch_qa_responses logged_in net_one_500 (fun _ => [1; 0]%nat) [1; 0]%nat
    two_domains two_questions
  = Some (Ok [[answer_at 0 0; failed_entry];
              [answer_at 1 0; answer_at 1 1]]).
Proof. vm_compute. reflexivity. Qed.

(** One raising request makes its domain's coroutine raise, and with it the
    whole batch, in whatever order the requests finish. *)
Lemma fetch_qa_responses_raises s net inner outer domains_list qa_list
    i j domain qa e :
  outer ≡ₚ seq 0 (length domains_list) ->
  inner i ≡ₚ seq 0 (length qa_list) ->
  domains_list !! i = Some domain ->
  qa_list !! j = Some qa ->
  net i j (batch_request (base_url s) (access_token s) domain qa) = Raise e ->
  exists e', fetch_qa_responses s net inner outer domains_list qa_list
             = Some (Raise e').
Proof.
  intros Houter Hinner Hd Hq Hraise.
  assert (Hrow : exists e1,
    fetch_company_qa_responses s (net i) (inner i) domain qa_list
      (access_token s) = Some (Raise e1)).
  { unfold fetch_company_qa_responses.
    edestruct (gather_raises
      (imap (fun j qa =>
               Some (net i j (batch_request (base_url s) (access_token s)
                                domain qa))) qa_list)
      (inner i) j e) as [e1 He1].
    - apply (perm_seq_cover _ (length qa_list)); [exact Hinner |].
      apply lookup_lt_Some in Hq. exact Hq.
    - rewrite list_lookup_imap, Hq. cbn. rewrite Hraise. reflexivity.
    - rewrite He1. exists e1. reflexivity. }
  destruct Hrow as [e1 He1].
  unfold fetch_qa_responses.
  apply (gather_raises _ outer i e1).
  - apply (perm_seq_cover _ (length domains_list)); [exact Houter |].
    apply lookup_lt_Some in Hd. exact Hd.
  - rewrite list_lookup_imap, Hd. cbn. rewrite He1. reflexivity.
Qed.

(** C1 (the code departs from the claim): the batch does not return a
    sequence per domain for every input.  With one domain and one question
    whose request cannot be sent, [fetch_qa_responses] raises: there is no
    result at all where the claim has one inner sequence with one entry. *)
Theorem unanswered_batch_returns_nothing :
  fetch_qa_responses logged_in net_unreachable (fun _ => [0]%nat) [0]%nat
    ["a.com"] [question "What does it do?"]
  = Some (Raise (Exn "ClientConnectorError" "Cannot connect to host"))
  /\ ~ (exists results,
          fetch_qa_responses logged_in net_unreachable (fun _ => [0]%nat)
            [0]%nat ["a.com"] [question "What does it do?"]
          = Some (Ok results)).
Proof.
  split; [vm_compute; reflexivity |].
  intros [results H]. vm_compute in H. discriminate.
Qed.

(** C2 (the code departs from the claim): with two domains and two
    questions, when the request at row 0, column 1 raises a transport
    error, the batch has no result matrix at all: [fetch_qa_responses]
    raises that error, and the three answered requests are lost with it. *)
Theorem transport_failure_aborts_batch :
  fetch_qa_responses logged_in net_one_down (fun _ => [0; 1]%nat) [0; 1]%nat
    two_domains two_questions
  = Some (Raise (Exn "ClientConnectorError" "Cannot connect to host"))
  /\ fetch_qa_responses logged_in net_one_down (fun _ => [1; 0]%nat)
       [1; 0]%nat two_domains two_questions
     = Some (Raise (Exn "ClientConnectorError" "Cannot connect to host")).
Proof. split; vm_compute; reflexivity. Qed.

(** * Further properties of the handlers *)

(** ** Fields a handler leaves alone *)

#[local] Instance same_on_preorder {X} (f : session -> X) :
  PreOrder (same_on f).
Proof.
  split.
  - intros w. reflexivity.
  - intros a b c H1 H2. unfold same_on in *. congruence.
Qed.

Lemma on_ui {X} (f : session -> X) k c : frames (same_on f) (ui k c).
Proof. intros w. reflexivity. Qed.

Lemma on_ui_str {X} (f : session -> X) k msg :
  frames (same_on f) (ui_str k msg).
Proof. intros w. reflexivity. Qed.

Lemma on_post {X} (f : session -> X) net r : frames (same_on f) (post net r).
Proof. intros w. reflexivity. Qed.

Lemma on_modify {X} (f : session -> X) g :
  (forall s, f (g s) = f s) -> frames (same_on f) (modify g).
Proof. intros Hg w. apply Hg. Qed.

#[local] Hint Resolve on_ui on_ui_str on_post on_modify : frames.
#[local] Hint Extern 1 (forall s : session, _ = _) =>
  (intros; reflexivity) : frames.

Lemma on_fetch_companies {X} (f : session -> X) net :
  (forall c s, f (set_companies c s) = f s) ->
  frames (same_on f) (fetch_companies net).
Proof.
  intros Hf. unfold fetch_companies. repeat frames_step.
Qed.

Lemma on_writes {X} (f : session -> X) (domains_list : list string) :
  frames (same_on f)
    (foldr (fun domain k => ui_str UiWrite ("- " +:+ domain) ;; k)
           (ret tt) domains_list).
Proof.
  apply frames_writes; [typeclasses eauto | apply on_ui_str].
Qed.

(** X1: the crawl submit handler never writes to the session, whatever the
    form holds and whatever the backend answers. *)
Theorem submit_crawl_keeps_session net f s tr :
  w_session (snd (submit_crawl net f (World s tr))) = s.
Proof.
  assert (H : frames (same_on whole) (submit_crawl net f)).
  { unfold submit_crawl. repeat frames_step. apply on_writes. }
  apply (H (World s tr)).
Qed.

(** ** When the crawl request goes out *)

Lemma crawl_accepted_ready s f :
  crawl_accepted s f = true <-> crawl_ready s f.
Proof.
  unfold crawl_accepted, crawl_ready, custom_prompt, opt_truthy.
  rewrite !andb_true_iff, negb_true_iff, str_truthy_nonempty.
  destruct (form_crawl_type f); cbn.
  - split.
    + intros [[[Ha Hd] _] Hp]. repeat split; try assumption;
        [discriminate |].
      destruct (parse_domains (company_domains f)); discriminate.
    + intros (Ha & Hd & _ & Hp). repeat split; try assumption.
      destruct (parse_domains (company_domains f)); [congruence | reflexivity].
  - rewrite negb_false_iff, str_truthy_nonempty. split.
    + intros [[[Ha Hd] Hc] Hp]. repeat split; try assumption;
        [intros _; exact Hc |].
      destruct (parse_domains (company_domains f)); discriminate.
    + intros (Ha & Hd & Hc & Hp). repeat split; try assumption; [auto |].
      destruct (parse_domains (company_domains f)); [congruence | reflexivity].
Qed.

(** X2: the crawl submit handler sends exactly one request, to
    [/company_crawl/] with the session's bearer token and a timeout of 30
    seconds, when the session is authenticated, the domains text is not
    empty, a custom crawl has a prompt and some line of the text is not
    blank; in every other case it sends nothing.  Whatever the backend
    answers, nothing is sent a second time. *)
Theorem submit_crawl_sends_iff net f s :
  (crawl_ready s f ->
   exists req,
     sent (submit_crawl net f) s = [req]
     /\ url req = base_url s +:+ "/company_crawl/"
     /\ headers req = bearer_headers (access_token s)
     /\ timeout req = Some 30
     /\ data req
        = Some (JObj (crawl_payload f (parse_domains (company_domains f)))))
  /\ (~ crawl_ready s f -> sent (submit_crawl net f) s = []).
Proof.
  unfold sent, run. rewrite submit_crawl_sent. cbn [posts app].
  split; intros H.
  - apply crawl_accepted_ready in H. rewrite H.
    eexists. split; [reflexivity |]. repeat split.
  - destruct (crawl_accepted s f) eqn:Hacc; [| reflexivity].
    apply crawl_accepted_ready in Hacc. contradiction.
Qed.

Lemma submit_crawl_sends_iff_witness :
  (exists req,
     sent (submit_crawl net_reject (lite_form (two_lines "x.com" "y.com")))
          logged_in = [req]
     /\ timeout req = Some 30)
  /\ sent (submit_crawl net_accept (lite_form (two_lines " " "  "))) logged_in
     = []
  /\ sent (submit_crawl net_accept (lite_form no_break_space)) logged_in = [].
Proof.
  split; [| split].
  - destruct (proj1 (submit_crawl_sends_iff net_reject
                       (lite_form (two_lines "x.com" "y.com")) logged_in))
      as (req & Hs & _ & _ & Ht & _).
    + repeat split; try discriminate.
    + exists req. split; assumption.
  - apply (proj2 (submit_crawl_sends_iff net_accept
                    (lite_form (two_lines " " "  ")) logged_in)).
    intros (_ & _ & _ & Hp). apply Hp. reflexivity.
  - apply (proj2 (submit_crawl_sends_iff net_accept
                    (lite_form no_break_space) logged_in)).
    intros (_ & _ & _ & Hp). apply Hp. reflexivity.
Defined.

(** ** The mode radio *)

(** X3: choosing a mode stores it; the company list is refreshed (one
    request) exactly when the choice is "Ask Question", another mode was
    active and the session is authenticated; in every other case nothing is
    sent and nothing else changes. *)
Theorem select_mode_refreshes net mode s :
  app_mode (session_after (select_mode net mode) s) = mode
  /\ (mode <> app_mode s -> mode = "Ask Question" ->
      authenticated s = true ->
      sent (select_mode net mode) s = [company_request s]
      /\ session_after (select_mode net mode) s
         = set_app_mode mode (session_after (fetch_companies net) s))
  /\ (mode = app_mode s \/ mode <> "Ask Question"
      \/ authenticated s = false ->
      sent (select_mode net mode) s = []
      /\ session_after (select_mode net mode) s = set_app_mode mode s).
Proof.
  unfold session_after, sent, run, select_mode.
  rewrite bind_get. cbn [w_session].
  destruct (fetch_companies_frame net s []) as (cs & evs & Hf & Hp).
  split; [| split].
  - destruct (negb (mode =? app_mode s)%string && (mode =? "Ask Question")%string
              && authenticated s); unfold bind; [rewrite Hf |]; reflexivity.
  - intros Hne -> Ha. rewrite Ha.
    destruct (String.eqb_spec "Ask Question" (app_mode s)) as [He|_];
      [contradiction |].
    cbn [negb andb String.eqb Ascii.eqb Bool.eqb]. unfold bind.
    rewrite Hf. cbn. rewrite Hp, Ha. split; reflexivity.
  - intros Hcase.
    assert (Hb : negb (mode =? app_mode s)%string
                 && (mode =? "Ask Question")%string && authenticated s = false).
    { destruct Hcase as [-> | [Hm | Ha]].
      - rewrite String.eqb_refl. reflexivity.
      - destruct (String.eqb_spec mode "Ask Question"); [contradiction |].
        rewrite andb_false_r. reflexivity.
      - rewrite Ha. apply andb_false_r. }
    rewrite Hb. split; reflexivity.
Qed.

Lemma select_mode_refreshes_witness :
  sent (select_mode net_accept "Ask Question")
       (set_app_mode "Crawl Company Website" logged_in)
  = [company_request logged_in]
  /\ sent (select_mode net_accept "Ask Question") logged_in = [].
Proof.
  split.
  - apply (proj1 (proj2 (select_mode_refreshes net_accept "Ask Question"
                           (set_app_mode "Crawl Company Website" logged_in)))).
    + discriminate.
    + reflexivity.
    + reflexivity.
  - apply (proj2 (proj2 (select_mode_refreshes net_accept "Ask Question"
                           logged_in))).
    left. reflexivity.
Defined.

(** ** What [authenticate] and [fetch_companies] leave alone *)

#[local] Hint Extern 1 (forall (c : json) (s : session), _ = _) =>
  (intros; reflexivity) : frames.
#[local] Hint Resolve on_fetch_companies : frames.

Lemma on_authenticate {X} (f : session -> X) net :
  (forall c s, f (set_companies c s) = f s) ->
  (forall t s, f (set_access_token t s) = f s) ->
  (forall b s, f (set_authenticated b s) = f s) ->
  frames (same_on f) (authenticate net).
Proof.
  intros Hc Ht Ha. unfold authenticate. repeat frames_step.
Qed.

(** X4: [authenticate] writes [authenticated], [access_token] and (through
    the refresh) [companies] only: the mode, the credentials, the base URL
    and the chat history are what they were, whatever the backend does. *)
Theorem authenticate_keeps_user_side net s tr :
  user_side (w_session (snd (authenticate net (World s tr)))) = user_side s.
Proof. apply (on_authenticate user_side net); reflexivity. Qed.

Lemma fetch_companies_session net s tr :
  authenticated s = true ->
  w_session (snd (fetch_companies net (World s tr)))
  = refreshed s (net (posts tr) (company_request s)).
Proof.
  intros Ha.
  unfold fetch_companies, bind, try_except, get_session, post, lift, modify,
    ui_str, ui, emit, ret, refreshed.
  cbn. rewrite Ha. cbn.
  destruct (net (posts tr) (company_request s)) as [r|e]; cbn;
    [| reflexivity].
  destruct (status_code r =? 200); cbn; [| reflexivity].
  destruct (body_json r) as [v|e]; cbn; [| reflexivity].
  destruct v; reflexivity.
Qed.

Lemma refreshed_twice s out : refreshed (refreshed s out) out = refreshed s out.
Proof.
  unfold refreshed. destruct out as [r|e]; [| reflexivity].
  destruct (status_code r =? 200); [| reflexivity].
  destruct (body_json r) as [v|e]; [| reflexivity].
  destruct v; reflexivity.
Qed.

(** X5: refreshing the company list twice in a row, against a backend whose
    answer does not depend on what was sent before, leaves the session as
    one refresh does. *)
Theorem fetch_companies_idempotent net s :
  (forall hist hist' r, net hist r = net hist' r) ->
  session_after (fetch_companies net ;; fetch_companies net) s
  = session_after (fetch_companies net) s.
Proof.
  intros Hnet. unfold session_after, run, bind.
  destruct (authenticated s) eqn:Ha.
  - pose proof (fetch_companies_session net s [] Ha) as H1.
    destruct (fetch_companies_frame net s []) as (cs & evs & Hf & _).
    rewrite Hf in H1 |- *. cbn [snd w_session] in H1 |- *.
    rewrite (fetch_companies_session net (set_companies cs s) _ Ha).
    change (company_request (set_companies cs s)) with (company_request s).
    rewrite (Hnet _ (posts [])), H1. apply refreshed_twice.
  - rewrite (fetch_companies_unauthenticated net (World s []) Ha).
    rewrite (fetch_companies_unauthenticated net (World s []) Ha).
    reflexivity.
Qed.

Lemma fetch_companies_idempotent_witness :
  session_after (fetch_companies net_accept ;; fetch_companies net_accept)
                two_companies
  = session_after (fetch_companies net_accept) two_companies.
Proof.
  apply (fetch_companies_idempotent net_accept two_companies).
  intros hist hist' r. reflexivity.
Defined.

(** ** The assistant's entry *)

Lemma posts_snoc_ui tr k c : posts (tr ++ [EvUi k c]) = posts tr.
Proof. rewrite posts_app. apply app_nil_r. Qed.

Lemma submit_prompt_world net cfg dom now prompt s tr :
  prompt <> "" ->
  exists tr',
    submit_prompt net cfg dom now prompt (World s tr)
    = (Ok tt,
       World (set_messages
                (messages s ++
                 [user_message prompt;
                  reply_entry dom now prompt
                    (net (posts tr) (qa_request s cfg dom prompt))]) s)
             tr')
    /\ posts tr' = posts tr ++ [qa_request s cfg dom prompt].
Proof.
  intros Hp. apply str_truthy_nonempty in Hp.
  unfold submit_prompt. rewrite Hp.
  unfold append_message at 1.
  rewrite bind_modify, !bind_ui_str, bind_get. cbn [w_session w_trace].
  unfold try_except, bind, post, lift, append_message, modify, ui_str, ui,
    emit.
  cbn [w_session w_trace]. rewrite !posts_snoc_ui.
  change (qa_request (set_messages (messages s ++ [user_message prompt]) s)
            cfg dom prompt) with (qa_request s cfg dom prompt).
  unfold reply_entry, failure_text.
  assert (Hfinal : forall reply,
    set_messages
      (messages (set_messages (messages s ++ [user_message prompt]) s)
         ++ [reply])
      (set_messages (messages s ++ [user_message prompt]) s)
    = set_messages (messages s ++ [user_message prompt; reply]) s).
  { intros reply. unfold set_messages. cbn. rewrite <- app_assoc.
    reflexivity. }
  destruct (net (posts tr) (qa_request s cfg dom prompt)) as [r|e]; cbn.
  - destruct (status_code r =? 200); cbn.
    + destruct (body_json r) as [v|e]; cbn.
      * destruct v; cbn; rewrite Hfinal; eexists;
          (split; [reflexivity |]);
          repeat rewrite posts_snoc_ui; rewrite posts_app;
          repeat rewrite posts_snoc_ui; reflexivity.
      * rewrite Hfinal; eexists; split; [reflexivity |].
        repeat rewrite posts_snoc_ui; rewrite posts_app;
          repeat rewrite posts_snoc_ui; reflexivity.
    + rewrite Hfinal; eexists; split; [reflexivity |].
      repeat rewrite posts_snoc_ui; rewrite posts_app;
        repeat rewrite posts_snoc_ui; reflexivity.
  - rewrite Hfinal; eexists; split; [reflexivity |].
    repeat rewrite posts_snoc_ui; rewrite posts_app;
      repeat rewrite posts_snoc_ui; reflexivity.
Qed.

Lemma submit_prompt_run net cfg dom now prompt s tr :
  prompt <> "" ->
  messages (w_session (snd (submit_prompt net cfg dom now prompt (World s tr))))
  = messages s ++
    [user_message prompt;
     reply_entry dom now prompt (net (posts tr) (qa_request s cfg dom prompt))].
Proof.
  intros Hp.
  destruct (submit_prompt_world net cfg dom now prompt s tr Hp)
    as (tr' & -> & _).
  reflexivity.
Qed.

(** X6: when the QA request is answered 200 with a JSON object, the
    assistant's entry holds the object's "output" (or "No answer
    available" when the key is missing) as content, and a [json_output]
    record with the prompt, that answer, the selected domain, the time stamp
    and, always, the whole answer under "full_response". *)
Theorem submit_prompt_success net cfg dom now prompt s tr r d :
  prompt <> "" ->
  net (posts tr) (qa_request s cfg dom prompt) = Ok r ->
  status_code r = 200 ->
  body_json r = Ok (JObj d) ->
  messages (w_session (snd (submit_prompt net cfg dom now prompt (World s tr))))
  = messages s ++ [user_message prompt; success_entry dom now prompt d].
Proof.
  intros Hp Hn Hs Hb.
  rewrite (submit_prompt_run net cfg dom now prompt s tr Hp).
  unfold reply_entry, failure_text. rewrite Hn, Hs, Hb. reflexivity.
Qed.

Lemma submit_prompt_success_witness :
  messages (session_after (submit_prompt net_answer default_config "acme.com"
                             "2025-01-01T00:00:00" "What does Acme do?")
                          logged_in)
  = [user_message "What does Acme do?";
     success_entry "acme.com" "2025-01-01T00:00:00" "What does Acme do?"
       [("output", JStr "Acme makes anvils.")]].
Proof.
  apply (submit_prompt_success net_answer default_config "acme.com"
           "2025-01-01T00:00:00" "What does Acme do?" logged_in []
           (ok_response (JObj [("output", JStr "Acme makes anvils.")]))
           [("output", JStr "Acme makes anvils.")]);
    [discriminate | reflexivity | reflexivity | reflexivity].
Defined.

(** X7: every other outcome of the QA request leaves an assistant entry with
    the keys [role] and [content] only, whose content is the warning sign
    followed by "Error: <status> - <body>" for a status other than 200, and
    by "Error getting answer: <exception>" for a transport failure or a
    body that is not JSON, and by "Error getting answer: '<type>' object has
    no attribute 'get'" for a JSON body that is not an object (a list, a
    string, a number, ...). *)
Theorem submit_prompt_failure net cfg dom now prompt s tr :
  prompt <> "" ->
  let out := net (posts tr) (qa_request s cfg dom prompt) in
  let history :=
    messages (w_session (snd (submit_prompt net cfg dom now prompt
                                (World s tr)))) in
  (forall r, out = Ok r -> status_code r <> 200 ->
     history = messages s ++
       [user_message prompt;
        JObj [("role", JStr "assistant");
              ("content", JStr (warning_sign +:+ "Error: "
                                  +:+ str_of_int (status_code r)
                                  +:+ " - " +:+ text r))]])
  /\ (forall e, out = Raise e
                \/ (exists r, out = Ok r /\ status_code r = 200
                              /\ body_json r = Raise e) ->
        history = messages s ++
          [user_message prompt;
           JObj [("role", JStr "assistant");
                 ("content", JStr (warning_sign +:+ "Error getting answer: "
                                     +:+ exn_str e))]])
  /\ (forall r v, out = Ok r -> status_code r = 200 ->
        body_json r = Ok v -> isinstance_dict v = false ->
        history = messages s ++
          [user_message prompt;
           JObj [("role", JStr "assistant");
                 ("content",
                   JStr (warning_sign +:+ "Error getting answer: "
                           +:+ "'" +:+ type_name v
                           +:+ "' object has no attribute 'get'"))]]).
Proof.
  intros Hp out history. subst history.
  rewrite (submit_prompt_run net cfg dom now prompt s tr Hp).
  fold out. unfold reply_entry, failure_text, error_message, status_and_text.
  split; [| split].
  - intros r -> Hs. apply Z.eqb_neq in Hs. rewrite Hs. reflexivity.
  - intros e [-> | (r & -> & Hs & Hb)]; [reflexivity |].
    rewrite Hs, Hb. reflexivity.
  - intros r v -> Hs Hb Hv. rewrite Hs, Hb.
    destruct v; try reflexivity. discriminate.
Qed.

Lemma submit_prompt_failure_witness :
  messages (session_after (submit_prompt net_reject default_config "acme.com"
                             "2025-01-01T00:00:00" "What does Acme do?")
                          logged_in)
  = [user_message "What does Acme do?";
     JObj [("role", JStr "assistant");
           ("content", JStr (warning_sign +:+ "Error: 401 - Unauthorized"))]]
  /\ messages (session_after (submit_prompt net_list default_config "acme.com"
                                "2025-01-01T00:00:00" "What does Acme do?")
                             logged_in)
     = [user_message "What does Acme do?";
        JObj [("role", JStr "assistant");
              ("content",
                JStr (warning_sign +:+ "Error getting answer: "
                        +:+ "'list' object has no attribute 'get'"))]].
Proof.
  split.
  - apply (proj1 (submit_prompt_failure net_reject default_config "acme.com"
                    "2025-01-01T00:00:00" "What does Acme do?" logged_in []
                    ltac:(discriminate))
             (status_response 401 "Unauthorized"));
      [reflexivity | discriminate].
  - apply (proj2 (proj2 (submit_prompt_failure net_list default_config
                           "acme.com" "2025-01-01T00:00:00"
                           "What does Acme do?" logged_in []
                           ltac:(discriminate)))
             (ok_response (JArr [])) (JArr []));
      reflexivity.
Defined.

(** ** Invariants of the reachable sessions *)

Lemma paired_app ms u a :
  paired ms -> is_user_message u -> is_assistant_message a ->
  paired (ms ++ [u; a]).
Proof.
  intros Hms Hu Ha. revert Hms.
  induction ms as [ms IH] using (induction_ltof1 _ (@length json)).
  unfold ltof in IH.
  destruct ms as [|u0 [|a0 rest]]; cbn.
  - auto.
  - intros [].
  - intros (H1 & H2 & H3). repeat split; try assumption.
    apply IH; [cbn; lia | exact H3].
Qed.

Lemma reply_entry_is_assistant dom now prompt out :
  is_assistant_message (reply_entry dom now prompt out).
Proof.
  unfold reply_entry, failure_text, error_message, success_entry.
  destruct out as [r|e].
  - destruct (status_code r =? 200).
    + destruct (body_json r) as [v|e].
      * destruct v; eexists _, _; reflexivity.
      * eexists _, _; reflexivity.
    + eexists _, _; reflexivity.
  - eexists _, _; reflexivity.
Qed.

Lemma exec_messages net o s :
  messages (exec net o s) = messages s
  \/ messages (exec net o s) = []
  \/ exists u a, is_user_message u /\ is_assistant_message a
                 /\ messages (exec net o s) = messages s ++ [u; a].
Proof.
  unfold exec. destruct o; cbn [run_op].
  - left. reflexivity.
  - left. unfold bind.
    pose proof (on_authenticate messages net
                  ltac:(reflexivity) ltac:(reflexivity) ltac:(reflexivity)
                  (World s [])) as H.
    unfold same_on in H. cbn [w_session] in H.
    destruct (authenticate net (World s [])) as [[b|e] w]; exact H.
  - left.
    assert (H : frames (same_on messages) (select_mode net mode)).
    { unfold select_mode. repeat frames_step. }
    apply (H (World s [])).
  - left. apply (on_fetch_companies messages net ltac:(reflexivity)
                   (World s [])).
  - left.
    assert (H : frames (same_on messages) (submit_crawl net f)).
    { unfold submit_crawl. repeat frames_step. apply on_writes. }
    apply (H (World s [])).
  - destruct (String.eqb_spec prompt "") as [->|Hp].
    + left. reflexivity.
    + right. right.
      destruct (submit_prompt_world net cfg selected_domain now prompt s []
                  Hp) as (tr' & -> & _).
      eexists _, _. split; [exists prompt; split; [exact Hp | reflexivity] |].
      split; [apply reply_entry_is_assistant | reflexivity].
  - unfold clear_chat. rewrite bind_get. cbn [w_session].
    destruct (messages s) eqn:Hm.
    + left. cbn. exact Hm.
    + right. left. reflexivity.
Qed.

(** X8: in every session reachable from a fresh one, the chat history is a
    sequence of exchanges: entries come in pairs, a user entry with a
    non-empty prompt followed by an assistant entry. *)
Theorem history_is_paired s : reachable s -> paired (messages s).
Proof.
  induction 1 as [u p b | net o s _ Hr IH].
  - exact I.
  - destruct (exec_messages net o s) as [-> | [-> | (u & a & Hu & Ha & ->)]].
    + exact IH.
    + exact I.
    + apply paired_app; assumption.
Qed.

Lemma history_is_paired_witness :
  length (messages asked_once) = 2%nat /\ paired (messages asked_once).
Proof.
  split; [reflexivity |].
  apply (history_is_paired asked_once).
  apply reach_step; [exact I |]. apply reach_step; [exact I |].
  apply reach_init.
Defined.

Lemma exec_other_companies net o s :
  o <> OpAuthenticate ->
  authenticated s = false ->
  companies (exec net o s) = companies s.
Proof.
  intros Ho Ha. unfold exec. destruct o; cbn [run_op]; try congruence.
  - reflexivity.
  - unfold select_mode. rewrite bind_get. cbn [w_session]. rewrite Ha.
    rewrite !andb_false_r. reflexivity.
  - rewrite (fetch_companies_unauthenticated net (World s []) Ha).
    reflexivity.
  - assert (H : frames (same_on companies) (submit_crawl net f)).
    { unfold submit_crawl. repeat frames_step. apply on_writes. }
    apply (H (World s [])).
  - assert (H : frames (same_on companies)
                  (submit_prompt net cfg selected_domain now prompt)).
    { unfold submit_prompt, append_message. repeat frames_step. }
    apply (H (World s [])).
  - assert (H : frames (same_on companies) clear_chat).
    { unfold clear_chat. repeat frames_step. }
    apply (H (World s [])).
Qed.

Lemma exec_authenticate_refused net s :
  (forall d, ~ token_granted net [] s d) ->
  exec net OpAuthenticate s = set_authenticated false s.
Proof.
  intros Hno. unfold exec. cbn [run_op]. unfold bind, ret.
  destruct (authenticate_refused net s [] Hno) as (msg & ->). reflexivity.
Qed.

(** X9: against backends that honour the token contract, a reachable session
    that holds no token is not authenticated and has an empty company
    list: the company list is only ever filled behind a token. *)
Theorem no_token_no_companies s :
  reachable_when token_contract s ->
  access_token s = JNull ->
  authenticated s = false /\ companies s = JArr [].
Proof.
  induction 1 as [u p b | net o s Hc Hr IH]; intros Ht.
  - split; reflexivity.
  - assert (Hop : o = OpAuthenticate \/ o <> OpAuthenticate)
      by (destruct o; first [left; reflexivity | right; discriminate]).
    destruct Hop as [->|Ho].
    + destruct (token_granted_dec net [] s) as [[d Hg] | Hno].
      * exfalso.
        destruct (exec_authenticate net s) as [(d' & Hg' & _ & Ht') | (Hf & _)].
        -- pose proof (token_contract_nonempty net [] s d' Hc Hg') as Hne.
           rewrite <- Ht', Ht in Hne. exact Hne.
        -- destruct (authenticate_granted net s [] d Hg) as (cs & evs & He & _).
           unfold exec in Hf. cbn [run_op] in Hf. unfold bind, ret in Hf.
           rewrite He in Hf. discriminate.
      * rewrite (exec_authenticate_refused net s Hno) in Ht |- *.
        destruct (IH Ht) as [_ Hcs]. split; [reflexivity | exact Hcs].
    + destruct (exec_other_auth net o s Ho) as [Ha Htok].
      rewrite Htok in Ht. destruct (IH Ht) as [Hau Hcs].
      split; [congruence |].
      rewrite (exec_other_companies net o s Ho Hau). exact Hcs.
Qed.

Lemma no_token_no_companies_witness :
  authenticated (exec net_reject OpAuthenticate fresh) = false
  /\ companies (exec net_reject OpAuthenticate fresh) = JArr [].
Proof.
  apply (no_token_no_companies (exec net_reject OpAuthenticate fresh)).
  - apply reach_step; [| apply reach_init].
    intros hist s r Hn Hs. injection Hn as <-. discriminate.
  - reflexivity.
Defined.

(** ** The domains text: one domain per line *)

Lemma split_no_sep sep s : contains sep s = false -> split sep s = [s].
Proof.
  induction s as [|c r IH]; intros H; [reflexivity |].
  cbn in H |- *. apply orb_false_elim in H as [Hc Hr].
  rewrite Hc, (IH Hr). reflexivity.
Qed.

Lemma split_line sep a b :
  contains sep a = false ->
  split sep (a +:+ String sep b) = a :: split sep b.
Proof.
  induction a as [|c r IH]; intros H.
  - change (EmptyString +:+ String sep b) with (String sep b).
    cbn [split]. rewrite Ascii.eqb_refl. reflexivity.
  - cbn in H. apply orb_false_elim in H as [Hc Hr].
    change (String c r +:+ String sep b) with (String c (r +:+ String sep b)).
    cbn [split]. rewrite Hc, (IH Hr). reflexivity.
Qed.

Lemma split_join_lines domains :
  domains <> [] ->
  Forall (fun d => contains newline d = false) domains ->
  split newline (join_lines domains) = domains.
Proof.
  intros Hne Hall. induction Hall as [|d rest Hd Hrest IH]; [congruence |].
  destruct rest as [|d' rest'].
  - cbn. apply split_no_sep, Hd.
  - change (join_lines (d :: d' :: rest'))
      with (d +:+ String newline (join_lines (d' :: rest'))).
    rewrite (split_line _ _ _ Hd), IH; [reflexivity | discriminate].
Qed.

(** X10: a domains text made of clean domains, one per line, is parsed back
    into exactly these domains, in their order. *)
Theorem parse_domains_join_lines domains :
  Forall clean_domain domains ->
  parse_domains (join_lines domains) = domains.
Proof.
  intros Hall. destruct domains as [|d rest]; [reflexivity |].
  unfold parse_domains. rewrite split_join_lines.
  - induction Hall as [|x l (Hx & Hs & _) _ IH]; [reflexivity |].
    cbn [List.filter]. rewrite Hs.
    rewrite (proj2 (str_truthy_nonempty x) Hx).
    cbn [map]. rewrite Hs. f_equal. exact IH.
  - discriminate.
  - eapply Forall_impl; [exact Hall |]. intros x (_ & _ & Hx). exact Hx.
Qed.

Lemma parse_domains_join_lines_witness :
  parse_domains (join_lines ["x.com"; "y.com"; "x.com"])
  = ["x.com"; "y.com"; "x.com"].
Proof.
  apply (parse_domains_join_lines ["x.com"; "y.com"; "x.com"]).
  repeat constructor; discriminate.
Defined.

(** ** The companies on the pages *)

Lemma domain_options_of_dicts cs :
  all_dicts cs ->
  domain_options_of cs = Ok (List.filter truthy (map domain_of cs)).
Proof.
  induction 1 as [|c cs Hc _ IH]; [reflexivity |].
  destruct c; try discriminate. cbn [domain_options_of py_get map List.filter domain_of].
  rewrite IH.
  destruct (dict_lookup "company_domain" kvs) as [v|]; cbn.
  - destruct (truthy v); reflexivity.
  - reflexivity.
Qed.

Lemma domain_options_of_raises cs :
  ~ all_dicts cs ->
  exists pre c post,
    cs = pre ++ c :: post
    /\ all_dicts pre
    /\ isinstance_dict c = false
    /\ domain_options_of cs = Raise (AttributeError c "get").
Proof.
  induction cs as [|c cs IH]; intros Hno.
  - exfalso. apply Hno. constructor.
  - destruct (isinstance_dict c) eqn:Hc.
    + assert (Hcs : ~ all_dicts cs).
      { intros Hcs. apply Hno. constructor; [exact Hc | exact Hcs]. }
      destruct (IH Hcs) as (pre & c' & post & -> & Hpre & Hc' & Hraise).
      exists (c :: pre), c', post.
      split; [reflexivity |]. split; [constructor; assumption |].
      split; [exact Hc' |].
      destruct c; try discriminate.
      cbn [domain_options_of py_get]. rewrite Hraise.
      destruct (truthy (default JNull (dict_lookup "company_domain" kvs)));
        reflexivity.
    + exists [], c, cs.
      split; [reflexivity |]. split; [constructor |].
      split; [exact Hc |].
      destruct c; try discriminate; reflexivity.
Qed.

Lemma all_dicts_dec cs : all_dicts cs \/ ~ all_dicts cs.
Proof.
  induction cs as [|c cs [IH|IH]].
  - left. constructor.
  - destruct (isinstance_dict c) eqn:Hc.
    + left. constructor; assumption.
    + right. intros H. inversion H; subst. congruence.
  - right. intros H. inversion H; subst. contradiction.
Qed.

(** X11: the select box offers, in the order of the company list, the
    "company_domain" values that are truthy: a company without the key, or
    with an empty or null domain, is not offered, and the default [""] of
    the comprehension never is.  A company that is not a JSON object makes
    the page raise: the [AttributeError] of [get] on the first such
    company. *)
Theorem domain_options_are_truthy s cs :
  companies s = JArr cs ->
  (all_dicts cs ->
   domain_options s = Ok (List.filter truthy (map domain_of cs))
   /\ forall ds, domain_options s = Ok ds ->
                 Forall (fun d => truthy d = true /\ d <> JStr "") ds)
  /\ (~ all_dicts cs ->
      exists pre c post,
        cs = pre ++ c :: post
        /\ all_dicts pre
        /\ isinstance_dict c = false
        /\ domain_options s = Raise (AttributeError c "get")).
Proof.
  intros Hcs. unfold domain_options. rewrite Hcs. cbn [py_iter].
  split.
  - intros Hd. rewrite (domain_options_of_dicts cs Hd).
    split; [reflexivity |].
    intros ds Heq. injection Heq as <-.
    apply List.Forall_forall. intros d Hin.
    apply List.filter_In in Hin as [_ Ht].
    split; [exact Ht | intros ->; discriminate].
  - apply domain_options_of_raises.
Qed.

Lemma domain_options_are_truthy_witness :
  domain_options three_companies = Ok [JStr "acme.com"; JStr "beta.io"].
Proof.
  destruct (domain_options_are_truthy three_companies _ eq_refl) as [H _].
  destruct H as [-> _]; [| reflexivity].
  repeat constructor.
Defined.

Lemma find_company_option cs ds d :
  domain_options_of cs = Ok ds ->
  In (JStr d) ds ->
  exists kvs,
    find_company cs d = Ok (Some (JObj kvs))
    /\ In (JObj kvs) cs
    /\ dict_lookup "company_domain" kvs = Some (JStr d).
Proof.
  revert ds. induction cs as [|c cs IH]; intros ds Hds Hin.
  - injection Hds as <-. destruct Hin.
  - destruct c; try discriminate.
    cbn [domain_options_of find_company py_get] in *.
    destruct (dict_lookup "company_domain" kvs) as [v|] eqn:Hv;
      cbn [from_option id] in *.
    + destruct (is_str d v) eqn:Hs.
      * exists kvs. split; [reflexivity |]. split; [left; reflexivity |].
        destruct v; try discriminate.
        cbn in Hs. apply String.eqb_eq in Hs. subst. exact Hv.
      * assert (Hrest : exists ds', domain_options_of cs = Ok ds'
                                    /\ In (JStr d) ds').
        { destruct (truthy v).
          - destruct (domain_options_of cs) as [ds'|e]; [| discriminate].
            injection Hds as <-. destruct Hin as [Heq | Hin].
            + subst v. cbn in Hs. rewrite String.eqb_refl in Hs.
              discriminate.
            + exists ds'. split; [reflexivity | exact Hin].
          - exists ds. split; assumption. }
        destruct Hrest as (ds' & Hds' & Hin').
        destruct (IH ds' Hds' Hin') as (kvs' & Hf & Hc & Hl).
        exists kvs'. split; [exact Hf |]. split; [right; exact Hc | exact Hl].
    + cbn [truthy is_str] in *.
      destruct (IH ds Hds Hin) as (kvs' & Hf & Hc & Hl).
      exists kvs'. split; [exact Hf |]. split; [right; exact Hc | exact Hl].
Qed.

(** X12: for a domain that the select box offers, the company looked up for
    it is a company of the list whose "company_domain" is that domain; the
    stand-in [{"company_name": "Unknown"}] is never used. *)
Theorem selected_company_is_listed s cs ds d :
  companies s = JArr cs ->
  domain_options s = Ok ds ->
  In (JStr d) ds ->
  exists kvs,
    selected_company s d = Ok (JObj kvs)
    /\ In (JObj kvs) cs
    /\ dict_lookup "company_domain" kvs = Some (JStr d)
    /\ JObj kvs <> unknown_company.
Proof.
  intros Hcs Hds Hin. unfold domain_options, selected_company in *.
  rewrite Hcs in *. cbn [py_iter] in *.
  destruct (find_company_option cs ds d Hds Hin) as (kvs & Hf & Hc & Hl).
  exists kvs. rewrite Hf. repeat split; try assumption.
  intros Heq. injection Heq as ->. discriminate.
Qed.

Lemma selected_company_is_listed_witness :
  selected_company three_companies "beta.io"
  = Ok (JObj [("company_domain", JStr "beta.io")]).
Proof.
  destruct (selected_company_is_listed three_companies _
              [JStr "acme.com"; JStr "beta.io"] "beta.io" eq_refl eq_refl)
    as (kvs & Hsel & _ & _ & _).
  - right. left. reflexivity.
  - rewrite Hsel. vm_compute in Hsel. symmetry. exact Hsel.
Defined.

Lemma map_result_length {A B} (f : A -> result B) l bs :
  map_result f l = Ok bs -> length bs = length l.
Proof.
  revert bs. induction l as [|a l IH]; intros bs H; cbn in H.
  - injection H as <-. reflexivity.
  - destruct (f a) as [b|e]; [| discriminate].
    destruct (map_result f l) as [bs'|e]; [| discriminate].
    injection H as <-. cbn. f_equal. apply IH. reflexivity.
Qed.

Lemma map_result_lookup {A B} (f : A -> result B) l bs i a :
  map_result f l = Ok bs -> l !! i = Some a ->
  exists b, bs !! i = Some b /\ f a = Ok b.
Proof.
  revert bs i. induction l as [|a0 l IH]; intros bs i H Hi; [discriminate |].
  cbn in H. destruct (f a0) as [b0|e] eqn:Hf; [| discriminate].
  destruct (map_result f l) as [bs'|e]; [| discriminate].
  injection H as <-. destruct i as [|i]; cbn in Hi |- *.
  - injection Hi as <-. exists b0. split; [reflexivity | exact Hf].
  - apply (IH bs' i eq_refl Hi).
Qed.

Lemma map_result_all {A B} (f : A -> result B) l :
  Forall (fun a => exists b, f a = Ok b) l ->
  exists bs, map_result f l = Ok bs.
Proof.
  induction 1 as [|a l [b Hb] _ [bs IH]]; cbn.
  - eexists; reflexivity.
  - rewrite Hb, IH. eexists; reflexivity.
Qed.

(** X13: for a company list of JSON objects the table of the crawl page has
    one row per company, in the order of the list; a row holds exactly the
    keys "Name" and "Domain", with "N/A" where the company lacks
    "company_name" or "company_domain". *)
Theorem company_data_rows s cs :
  companies s = JArr cs ->
  all_dicts cs ->
  exists rows,
    company_data s = Ok rows
    /\ length rows = length cs
    /\ forall i kvs, cs !! i = Some (JObj kvs) ->
                     rows !! i = Some (table_row kvs).
Proof.
  intros Hcs Hd. unfold company_data. rewrite Hcs. cbn [py_iter].
  destruct (map_result_all company_row cs) as [rows Hrows].
  { eapply Forall_impl; [exact Hd |]. intros c Hc.
    destruct c; try discriminate. eexists. reflexivity. }
  exists rows. split; [exact Hrows |].
  split; [apply (map_result_length _ _ _ Hrows) |].
  intros i kvs Hi.
  destruct (map_result_lookup _ _ _ i _ Hrows Hi) as (b & Hb & Hf).
  rewrite Hb. f_equal. cbn in Hf. injection Hf as <-. reflexivity.
Qed.

Lemma company_data_rows_witness :
  exists rows,
    company_data three_companies = Ok rows
    /\ length rows = 4%nat
    /\ rows !! 1%nat
       = Some (JObj [("Name", JStr "Nameless"); ("Domain", JStr "N/A")]).
Proof.
  destruct (company_data_rows three_companies _ eq_refl)
    as (rows & Hrows & Hlen & Hrow).
  - repeat constructor.
  - exists rows. split; [exact Hrows |]. split; [exact Hlen |].
    apply (Hrow 1%nat [("company_name", JStr "Nameless")]). reflexivity.
Defined.

(** ** The "Ask Question" page *)

(** X14: from a session that is not authenticated, neither the refresh of
    the company list, nor the mode radio, nor the crawl form, nor the "Ask
    Question" page sends a request (so the stored token never leaves a
    logged-out session through them), and the page leaves the session as it
    is. *)
Theorem logged_out_sends_nothing net s :
  authenticated s = false ->
  sent (fetch_companies net) s = []
  /\ (forall mode, sent (select_mode net mode) s = [])
  /\ (forall f, sent (submit_crawl net f) s = [])
  /\ (forall cfg now selected prompt clear_clicked,
        sent (ask_question_page net cfg now selected prompt clear_clicked) s
        = []
        /\ session_after
             (ask_question_page net cfg now selected prompt clear_clicked) s
           = s).
Proof.
  intros Ha. unfold sent, session_after, run.
  split; [| split; [| split]].
  - rewrite (fetch_companies_unauthenticated net (World s []) Ha).
    reflexivity.
  - intros mode. unfold select_mode. rewrite bind_get. cbn [w_session].
    rewrite Ha, !andb_false_r. reflexivity.
  - intros f. rewrite submit_crawl_sent. unfold crawl_accepted.
    rewrite Ha. reflexivity.
  - intros cfg now selected prompt clear_clicked.
    unfold ask_question_page. rewrite bind_get. cbn [w_session].
    rewrite Ha. split; reflexivity.
Qed.

Lemma logged_out_sends_nothing_witness :
  sent (ask_question_page net_accept default_config "2025-01-01T00:00:00"
          (JStr "acme.com") (Some "What does Acme do?") false) fresh
  = [].
Proof.
  apply (logged_out_sends_nothing net_accept fresh eq_refl).
Defined.

Lemma show_user_message prompt :
  display_only (show_message (user_message prompt)).
Proof.
  intros w.
  exists [EvUi UiChatMessage (JStr "user"); EvUi UiMarkdown (JStr prompt)].
  split; [| reflexivity].
  unfold show_message, user_message, bind, lift, ui, emit, ret. cbn.
  rewrite <- app_assoc. reflexivity.
Qed.

Lemma show_assistant_message m :
  is_assistant_message m -> display_only (show_message m).
Proof.
  intros (content & rest & ->) w.
  unfold show_message, bind, lift, ui, emit, ret, dict_item. cbn.
  destruct (dict_lookup "json_output" rest) as [v|].
  - exists [EvUi UiChatMessage (JStr "assistant"); EvUi UiMarkdown content;
            EvUi UiJson v].
    split; [| reflexivity]. cbn. rewrite <- !app_assoc. reflexivity.
  - exists [EvUi UiChatMessage (JStr "assistant"); EvUi UiMarkdown content].
    split; [| reflexivity]. cbn. rewrite <- !app_assoc. reflexivity.
Qed.

Lemma paired_entries ms :
  paired ms ->
  Forall (fun m => is_user_message m \/ is_assistant_message m) ms.
Proof.
  induction ms as [ms IH] using (induction_ltof1 _ (@length json)).
  unfold ltof in IH.
  destruct ms as [|u [|a rest]]; cbn.
  - constructor.
  - intros [].
  - intros (Hu & Ha & Hrest).
    constructor; [left; exact Hu |].
    constructor; [right; exact Ha |].
    apply IH; [cbn; lia | exact Hrest].
Qed.

Lemma bind_Ok {A B} (m : M A) (k : A -> M B) w a w' :
  m w = (Ok a, w') -> bind m k w = k a w'.
Proof. intros H. unfold bind. rewrite H. reflexivity. Qed.

Lemma show_history ms :
  paired ms ->
  display_only (foldr (fun message k => show_message message ;; k)
                      (ret tt) ms).
Proof.
  intros Hp. apply paired_entries in Hp.
  induction Hp as [|m ms Hm _ IH]; intros w.
  - exists []. destruct w as [s t]. cbn. rewrite app_nil_r.
    split; reflexivity.
  - cbn [foldr].
    assert (Hshow : display_only (show_message m)).
    { destruct Hm as [(p & _ & ->) | Hm];
        [apply show_user_message | apply show_assistant_message, Hm]. }
    destruct (Hshow w) as (evs1 & Hrun1 & Hp1).
    rewrite (bind_Ok _ _ _ _ _ Hrun1).
    destruct (IH (World (w_session w) (w_trace w ++ evs1)))
      as (evs2 & -> & Hp2).
    exists (evs1 ++ evs2). cbn [w_session w_trace].
    rewrite app_assoc, posts_app, Hp1, Hp2. split; reflexivity.
Qed.

Lemma bind_ret {A B} (a : A) (k : A -> M B) w : bind (ret a) k w = k a w.
Proof. reflexivity. Qed.

Lemma bind_lift_Ok {A B} (a : A) (k : A -> M B) w :
  bind (lift (Ok a)) k w = k a w.
Proof. reflexivity. Qed.

Lemma bind_ui {B} kind c (k : unit -> M B) w :
  bind (ui kind c) k w
  = k tt (World (w_session w) (w_trace w ++ [EvUi kind c])).
Proof. reflexivity. Qed.

(** X15: on an authenticated session whose company list is a non-empty list
    of JSON objects, with a domain chosen among the offered ones, a
    submitted prompt makes the page return normally, send exactly one
    request (the QA request for that domain and prompt; the company list is
    not fetched again) and append the exchange to the history; when the
    "Clear Chat History" button is on, the history is emptied after that. *)
Theorem ask_page_answers net cfg now s cs ds d p clear_clicked :
  authenticated s = true ->
  companies s = JArr cs ->
  domain_options s = Ok ds ->
  In (JStr d) ds ->
  paired (messages s) ->
  p <> "" ->
  let page :=
    ask_question_page net cfg now (JStr d) (Some p) clear_clicked in
  fst (run page s) = Ok tt
  /\ sent page s = [qa_request s cfg d p]
  /\ session_after page s
     = set_messages
         (if clear_clicked then []
          else messages s ++
               [user_message p;
                reply_entry d now p (net [] (qa_request s cfg d p))])
         s.
Proof.
  intros Ha Hcs Hds Hin Hpaired Hp page.
  assert (Hrun : exists tr',
    page (World s [])
    = (Ok tt,
       World (set_messages
                (if clear_clicked then []
                 else messages s ++
                      [user_message p;
                       reply_entry d now p (net [] (qa_request s cfg d p))])
                s) tr')
    /\ posts tr' = [qa_request s cfg d p]).
  { subst page. unfold ask_question_page.
    assert (Htruthy : truthy (companies s) = true).
    { rewrite Hcs. unfold domain_options in Hds. rewrite Hcs in Hds.
      destruct cs; [| reflexivity].
      cbn in Hds. injection Hds as <-. destruct Hin. }
    rewrite bind_get. cbn [w_session]. rewrite Ha, Htruthy. cbn [negb].
    rewrite bind_ret, bind_get. cbn [w_session]. rewrite Htruthy, Hds.
    rewrite bind_lift_Ok.
    destruct ds as [|d0 ds']; [destruct Hin |].
    assert (Hsel : exists kvs, selected_company s d = Ok (JObj kvs)).
    { unfold domain_options, selected_company in *. rewrite Hcs in *.
      cbn [py_iter] in *.
      destruct (find_company_option cs _ d Hds Hin) as (kvs & Hf & _).
      exists kvs. rewrite Hf. reflexivity. }
    destruct Hsel as [kvs Hsel]. rewrite Hsel, bind_lift_Ok.
    unfold company_name. cbn [py_get]. rewrite bind_lift_Ok, bind_ui.
    cbn [w_session w_trace].
    match goal with
    | |- context [World s ?t] =>
        destruct (show_history (messages s) Hpaired (World s t))
          as (evs & Hshow & Hevs)
    end.
    rewrite (bind_Ok _ _ _ _ _ Hshow). cbn [w_session w_trace].
    match goal with
    | |- context [World s ?t] =>
        assert (Hhist : posts t = [])
          by (rewrite posts_app, Hevs, posts_snoc_ui; reflexivity);
        destruct (submit_prompt_world net cfg d now p s t Hp)
          as (tr' & Hsub & Htr')
    end.
    rewrite Hhist in Hsub, Htr'.
    rewrite (bind_Ok _ _ _ _ _ Hsub), bind_get.
    cbn [w_session messages set_messages].
    destruct (messages s ++ _) as [|m0 ms0] eqn:Hms.
    { apply app_eq_nil in Hms as [_ Hms]. discriminate. }
    rewrite <- Hms.
    destruct clear_clicked; cbn; eexists; (split; [reflexivity |]);
      exact Htr'. }
  destruct Hrun as (tr' & Hrun & Htr').
  unfold sent, session_after, run. rewrite Hrun.
  split; [reflexivity |]. split; [exact Htr' | reflexivity].
Qed.

Lemma ask_page_answers_witness :
  sent (ask_question_page net_answer default_config "2025-01-01T00:00:00"
          (JStr "acme.com") (Some "What does Acme do?") false) logged_in
  = [qa_request logged_in default_config "acme.com" "What does Acme do?"]
  /\ messages
       (session_after
          (ask_question_page net_answer default_config "2025-01-01T00:00:00"
             (JStr "acme.com") (Some "What does Acme do?") false) logged_in)
     = [user_message "What does Acme do?";
        success_entry "acme.com" "2025-01-01T00:00:00" "What does Acme do?"
          [("output", JStr "Acme makes anvils.")]].
Proof.
  destruct (ask_page_answers net_answer default_config "2025-01-01T00:00:00"
              logged_in [acme] [JStr "acme.com"] "acme.com"
              "What does Acme do?" false)
    as (_ & Hsent & Hsession).
  - reflexivity.
  - reflexivity.
  - reflexivity.
  - left. reflexivity.
  - exact I.
  - discriminate.
  - split; [exact Hsent |]. rewrite Hsession. reflexivity.
Defined.

(** * Further properties of the batch QA orchestrator *)

Lemma gather_loop_empty {A} sched (slots : list (option A)) :
  gather_loop [] sched slots = Ok slots.
Proof.
  induction sched as [|i sched IH]; [reflexivity |]. cbn. exact IH.
Qed.

(** Awaitables that all finish are either all successful or one of them
    raises. *)
Lemma finished_cases {A} (outs : list (option (result A))) :
  Forall (fun o => o <> None) outs ->
  (exists vals, outs = (fun a => Some (Ok a)) <$> vals)
  \/ (exists k e, outs !! k = Some (Some (Raise e))).
Proof.
  induction 1 as [|o outs Ho _ IH].
  - left. exists []. reflexivity.
  - destruct o as [[a|e]|]; [| | congruence].
    + destruct IH as [[vals ->] | (k & e & Hk)].
      * left. exists (a :: vals). reflexivity.
      * right. exists (S k), e. exact Hk.
    + right. exists 0%nat, e. reflexivity.
Qed.

(** [gather] over awaitables that all finish, in an order that lists each
    of them, is done: it raises, or returns all the results. *)
Lemma gather_cases {A} (outs : list (option (result A))) sched :
  Forall (fun o => o <> None) outs ->
  (forall k, (k < length outs)%nat -> k ∈ sched) ->
  (exists e, gather outs sched = Some (Raise e))
  \/ (exists vals, outs = (fun a => Some (Ok a)) <$> vals
                   /\ gather outs sched = Some (Ok vals)).
Proof.
  intros Hfin Hcover.
  destruct (finished_cases outs Hfin) as [[vals ->] | (k & e & Hk)].
  - right. exists vals. split; [reflexivity |].
    apply gather_ok. intros k Hk. apply Hcover.
    rewrite length_fmap. exact Hk.
  - left. apply (gather_raises outs sched k e); [| exact Hk].
    apply Hcover. apply lookup_lt_Some in Hk. exact Hk.
Qed.

Lemma collect_results_raises responses acc j r e :
  responses !! j = Some r ->
  status_code r = 200 ->
  body_json r = Raise e ->
  exists e', collect_results responses acc = Raise e'.
Proof.
  revert acc j. induction responses as [|r0 rs IH]; intros acc j Hj Hs Hb;
    [discriminate |].
  cbn [collect_results]. destruct j as [|j]; cbn in Hj.
  - injection Hj as ->. rewrite Hs, Hb. cbn. eexists; reflexivity.
  - destruct (status_code r0 =? 200).
    + destruct (body_json r0) as [v|e0]; [| eexists; reflexivity].
      apply (IH _ j Hj Hs Hb).
    + apply (IH _ j Hj Hs Hb).
Qed.

Lemma batch_tasks_finish s answer domain qa_list token :
  Forall (fun o : option (result response) => o <> None)
    (imap (fun j qa =>
             Some (answer j (batch_request (base_url s) token domain qa)))
          qa_list).
Proof.
  apply Forall_lookup. intros j o Hj. rewrite list_lookup_imap in Hj.
  destruct (qa_list !! j); [| discriminate].
  cbn in Hj. injection Hj as <-. discriminate.
Qed.

(** One domain, its requests finishing in an order that lists each of
    them: the coroutine is done. *)
Lemma fetch_company_qa_responses_done s answer sched domain qa_list token :
  (forall k, (k < length qa_list)%nat -> k ∈ sched) ->
  exists out,
    fetch_company_qa_responses s answer sched domain qa_list token = Some out.
Proof.
  intros Hcover. unfold fetch_company_qa_responses.
  destruct (gather_cases _ sched
              (batch_tasks_finish s answer domain qa_list token))
    as [[e ->] | (vals & _ & ->)].
  - intros k Hk. apply Hcover. rewrite length_imap in Hk. exact Hk.
  - eexists; reflexivity.
  - eexists; reflexivity.
Qed.

(** One domain: an entry that cannot be built (the request raises, or its
    200 answer has no JSON body) makes the coroutine raise. *)
Lemma fetch_company_qa_responses_aborts s answer sched domain qa_list token
    j qa e :
  (forall k, (k < length qa_list)%nat -> k ∈ sched) ->
  qa_list !! j = Some qa ->
  qa_entry (answer j (batch_request (base_url s) token domain qa)) = Raise e ->
  exists e',
    fetch_company_qa_responses s answer sched domain qa_list token
    = Some (Raise e').
Proof.
  intros Hcover Hq Hentry. unfold fetch_company_qa_responses.
  destruct (gather_cases _ sched
              (batch_tasks_finish s answer domain qa_list token))
    as [[e1 ->] | (vals & Hvals & ->)].
  - intros k Hk. apply Hcover. rewrite length_imap in Hk. exact Hk.
  - eexists; reflexivity.
  - assert (Hj : exists r,
      vals !! j = Some r
      /\ answer j (batch_request (base_url s) token domain qa) = Ok r).
    { pose proof (f_equal (fun l => l !! j) Hvals) as Hl. cbn in Hl.
      rewrite list_lookup_imap, Hq, list_lookup_fmap in Hl. cbn in Hl.
      destruct (vals !! j) as [r|]; [| discriminate].
      exists r. split; [reflexivity |]. cbn in Hl. congruence. }
    destruct Hj as (r & Hr & Hans). rewrite Hans in Hentry. cbn in Hentry.
    destruct (Z.eqb_spec (status_code r) 200) as [Hs|Hs]; [| discriminate].
    destruct (collect_results_raises vals [] j r e Hr Hs Hentry) as [e' ->].
    eexists; reflexivity.
Qed.

(** The batch, when every entry can be built. *)
Lemma fetch_qa_responses_rows s net inner outer domains_list qa_list :
  (forall k, (k < length domains_list)%nat -> k ∈ outer) ->
  (forall i k, (i < length domains_list)%nat ->
               (k < length qa_list)%nat -> k ∈ inner i) ->
  (forall i j domain qa,
     domains_list !! i = Some domain -> qa_list !! j = Some qa ->
     exists v,
       qa_entry (net i j (batch_request (base_url s) (access_token s)
                            domain qa)) = Ok v) ->
  fetch_qa_responses s net inner outer domains_list qa_list
  = Some (Ok (imap (fun i domain =>
                      imap (fun j qa =>
                              entry_value
                                (net i j (batch_request (base_url s)
                                            (access_token s) domain qa)))
                           qa_list)
                   domains_list)).
Proof.
  intros Houter Hinner Hans.
  unfold fetch_qa_responses.
  match goal with
  | |- gather ?tasks outer = Some (Ok ?rows) =>
      assert (Htasks : tasks = (fun a => Some (Ok a)) <$> rows)
  end.
  { apply list_eq. intros i.
    rewrite list_lookup_fmap, !list_lookup_imap.
    destruct (domains_list !! i) as [domain|] eqn:Hd; [| reflexivity]. cbn.
    rewrite fetch_company_qa_responses_ok; [reflexivity | |].
    - intros k Hk. apply Hinner; [| exact Hk].
      apply lookup_lt_Some in Hd. exact Hd.
    - intros j qa Hq. apply (Hans i j domain qa Hd Hq). }
  rewrite Htasks. apply gather_ok.
  intros k Hk. rewrite length_imap in Hk. apply Houter, Hk.
Qed.

(** X16: with completion orders that list every request and every domain,
    the batch never hangs, and it returns a matrix exactly when every entry
    can be built, that is when no request raises and every 200 answer has
    a JSON body; in every other case it raises, and no matrix is
    returned. *)
Theorem fetch_qa_responses_outcome s net inner outer domains_list qa_list :
  outer ≡ₚ seq 0 (length domains_list) ->
  (forall i, (i < length domains_list)%nat ->
             inner i ≡ₚ seq 0 (length qa_list)) ->
  (exists out,
     fetch_qa_responses s net inner outer domains_list qa_list = Some out)
  /\ ((exists results,
         fetch_qa_responses s net inner outer domains_list qa_list
         = Some (Ok results))
      <-> (forall i j domain qa,
             domains_list !! i = Some domain -> qa_list !! j = Some qa ->
             exists v,
               qa_entry (net i j (batch_request (base_url s)
                                    (access_token s) domain qa)) = Ok v)).
Proof.
  intros Houter Hinner.
  assert (Hout : forall k, (k < length domains_list)%nat -> k ∈ outer).
  { intros k Hk. apply (perm_seq_cover _ _ _ Houter Hk). }
  assert (Hin : forall i k, (i < length domains_list)%nat ->
                            (k < length qa_list)%nat -> k ∈ inner i).
  { intros i k Hi Hk. apply (perm_seq_cover _ _ _ (Hinner i Hi) Hk). }
  split; [| split].
  - unfold fetch_qa_responses.
    match goal with
    | |- exists out, gather ?tasks outer = Some out =>
        destruct (gather_cases tasks outer) as [[e ->] | (vals & _ & ->)]
    end.
    + apply Forall_lookup. intros i o Hi. rewrite list_lookup_imap in Hi.
      destruct (domains_list !! i) as [domain|] eqn:Hd; [| discriminate].
      cbn in Hi. injection Hi as <-.
      destruct (fetch_company_qa_responses_done s (net i) (inner i) domain
                  qa_list (access_token s)) as [out ->]; [| discriminate].
      intros k Hk. apply Hin; [| exact Hk].
      apply lookup_lt_Some in Hd. exact Hd.
    + intros k Hk. rewrite length_imap in Hk. apply Hout, Hk.
    + eexists; reflexivity.
    + eexists; reflexivity.
  - intros [results Hres] i j domain qa Hd Hq.
    destruct (qa_entry _) as [v|e] eqn:Hentry; [exists v; reflexivity |].
    exfalso.
    destruct (fetch_company_qa_responses_aborts s (net i) (inner i) domain
                qa_list (access_token s) j qa e) as [e1 He1];
      [| exact Hq | exact Hentry |].
    { intros k Hk. apply Hin; [| exact Hk].
      apply lookup_lt_Some in Hd. exact Hd. }
    unfold fetch_qa_responses in Hres.
    edestruct (gather_raises
      (imap (fun i domain =>
               fetch_company_qa_responses s (net i) (inner i) domain qa_list
                 (access_token s)) domains_list) outer i e1) as [e2 He2].
    + apply Hout. apply lookup_lt_Some in Hd. exact Hd.
    + rewrite list_lookup_imap, Hd. cbn. rewrite He1. reflexivity.
    + rewrite He2 in Hres. discriminate.
  - intros Hans. eexists.
    apply (fetch_qa_responses_rows s net inner outer domains_list qa_list
             Hout Hin Hans).
Qed.

Lemma fetch_qa_responses_outcome_witness :
  (exists results,
     fetch_qa_responses logged_in net_grid (fun _ => [1; 0]%nat) [0; 1]%nat
       two_domains two_questions = Some (Ok results))
  /\ ~ (exists results,
          fetch_qa_responses logged_in net_one_garbled (fun _ => [1; 0]%nat)
            [0; 1]%nat two_domains two_questions = Some (Ok results)).
Proof.
  split.
  - apply (proj2 (fetch_qa_responses_outcome logged_in net_grid
                    (fun _ => [1; 0]%nat) [0; 1]%nat two_domains
                    two_questions (reflexivity _)
                    (fun _ _ => perm_swap _ _ _))).
    intros i j domain qa _ _. eexists. reflexivity.
  - intros Hres.
    pose proof (proj1 (proj2 (fetch_qa_responses_outcome logged_in
                                net_one_garbled
                                (fun _ => [1; 0]%nat) [0; 1]%nat two_domains
                                two_questions (reflexivity _)
                                (fun _ _ => perm_swap _ _ _))) Hres) as Hall.
    destruct (Hall 1%nat 0%nat "b.com" (question "What does it do?")
                eq_refl eq_refl) as [v Hv].
    discriminate.
Defined.

(** X17: in a batch whose entries can all be built, the entry of a request
    answered with a status other than 200 is the fixed record
    [{"error": "Failed to fetch response"}] (status and body of the answer
    are dropped), at the row of its domain and the column of its question;
    the entry of a request answered 200 is the decoded body. *)
Theorem batch_entry_by_status s net inner outer domains_list qa_list :
  outer ≡ₚ seq 0 (length domains_list) ->
  (forall i, (i < length domains_list)%nat ->
             inner i ≡ₚ seq 0 (length qa_list)) ->
  (forall i j domain qa,
     domains_list !! i = Some domain -> qa_list !! j = Some qa ->
     exists v,
       qa_entry (net i j (batch_request (base_url s) (access_token s)
                            domain qa)) = Ok v) ->
  exists results,
    fetch_qa_responses s net inner outer domains_list qa_list
    = Some (Ok results)
    /\ forall i j domain qa r,
         domains_list !! i = Some domain -> qa_list !! j = Some qa ->
         net i j (batch_request (base_url s) (access_token s) domain qa)
         = Ok r ->
         exists row,
           results !! i = Some row
           /\ (status_code r <> 200 -> row !! j = Some failed_entry)
           /\ (forall v, status_code r = 200 -> body_json r = Ok v ->
                         row !! j = Some v).
Proof.
  intros Houter Hinner Hans.
  eexists. split.
  - apply fetch_qa_responses_rows; [| | exact Hans].
    + intros k Hk. apply (perm_seq_cover _ _ _ Houter Hk).
    + intros i k Hi Hk. apply (perm_seq_cover _ _ _ (Hinner i Hi) Hk).
  - intros i j domain qa r Hd Hq Hr.
    eexists. rewrite list_lookup_imap, Hd. split; [reflexivity |].
    rewrite list_lookup_imap, Hq. cbn. rewrite Hr.
    unfold entry_value, qa_entry. split.
    + intros Hs. apply Z.eqb_neq in Hs. rewrite Hs. reflexivity.
    + intros v Hs Hb. rewrite Hs, Hb. reflexivity.
Qed.

Lemma batch_entry_by_status_witness :
  exists results row,
    fetch_qa_responses logged_in net_one_500 (fun _ => [1; 0]%nat) [1; 0]%nat
      two_domains two_questions = Some (Ok results)
    /\ results !! 0%nat = Some row
    /\ row !! 1%nat = Some failed_entry.
Proof.
  destruct (batch_entry_by_status logged_in net_one_500
              (fun _ => [1; 0]%nat) [1; 0]%nat two_domains two_questions)
    as (results & Hrun & Hpos).
  - apply perm_swap.
  - intros i _. apply perm_swap.
  - intros i j domain qa _ _. unfold net_one_500, net_grid.
    destruct ((i =? 0) && (j =? 1))%nat; eexists; reflexivity.
  - destruct (Hpos 0%nat 1%nat "a.com" (question "Where is it based?")
                (status_response 500 "Internal Server Error")
                eq_refl eq_refl eq_refl) as (row & Hrow & H500 & _).
    exists results, row. split; [exact Hrun |]. split; [exact Hrow |].
    apply H500. discriminate.
Defined.

(** X18: a batch without domains returns the empty matrix, and a batch
    without questions returns one empty row per domain; in both cases
    whatever the backend is, since nothing is sent. *)
Theorem fetch_qa_responses_empty s net inner outer :
  (forall qa_list,
     fetch_qa_responses s net inner outer [] qa_list = Some (Ok []))
  /\ (forall domains_list,
        outer ≡ₚ seq 0 (length domains_list) ->
        fetch_qa_responses s net inner outer domains_list []
        = Some (Ok ((fun _ => []) <$> domains_list))).
Proof.
  split.
  - intros qa_list. unfold fetch_qa_responses, gather. cbn.
    rewrite gather_loop_empty. reflexivity.
  - intros domains_list Houter.
    rewrite fetch_qa_responses_rows.
    + f_equal. f_equal. apply list_eq. intros i.
      rewrite list_lookup_imap, list_lookup_fmap.
      destruct (domains_list !! i); reflexivity.
    + intros k Hk. apply (perm_seq_cover _ _ _ Houter Hk).
    + intros i k _ Hk. cbn in Hk. lia.
    + intros i j domain qa _ Hq. discriminate.
Qed.

Lemma fetch_qa_responses_empty_witness :
  fetch_qa_responses logged_in net_one_down (fun _ => []) [1; 0]%nat
    two_domains [] = Some (Ok [[]; []]).
Proof.
  apply (proj2 (fetch_qa_responses_empty logged_in net_one_down
                  (fun _ => []) [1; 0]%nat) two_domains).
  apply perm_swap.
Defined.

Lemma gather_loop_skip {A} (outs : list (option (result A))) pre rest slots :
  (forall k, k ∈ pre -> forall e, outs !! k <> Some (Some (Raise e))) ->
  exists slots',
    gather_loop outs (pre ++ rest) slots = gather_loop outs rest slots'.
Proof.
  revert slots. induction pre as [|k pre IH]; intros slots Hpre.
  - exists slots. reflexivity.
  - cbn [app gather_loop].
    assert (Hpre' : forall k', k' ∈ pre ->
                      forall e, outs !! k' <> Some (Some (Raise e))).
    { intros k' Hk'. apply Hpre. right. exact Hk'. }
    destruct (outs !! k) as [[[a|e]|]|] eqn:Hk.
    + apply (IH _ Hpre').
    + exfalso. apply (Hpre k ltac:(left) e). exact Hk.
    + apply (IH _ Hpre').
    + apply (IH _ Hpre').
Qed.

(** X19: when several requests of a domain raise, the exception that leaves
    the domain's coroutine is the one of the request that finishes first;
    the others are never seen. *)
Theorem first_failure_surfaces s answer domain qa_list token
    pre j post qa e :
  qa_list !! j = Some qa ->
  answer j (batch_request (base_url s) token domain qa) = Raise e ->
  (forall k qa' e', k ∈ pre -> qa_list !! k = Some qa' ->
     answer k (batch_request (base_url s) token domain qa') <> Raise e') ->
  fetch_company_qa_responses s answer (pre ++ j :: post) domain qa_list token
  = Some (Raise e).
Proof.
  intros Hq Hraise Hpre. unfold fetch_company_qa_responses, gather.
  edestruct (gather_loop_skip
    (imap (fun j qa =>
             Some (answer j (batch_request (base_url s) token domain qa)))
          qa_list) pre (j :: post)) as [slots' ->].
  - intros k Hk e' Hl. rewrite list_lookup_imap in Hl.
    destruct (qa_list !! k) as [qa'|] eqn:Hq'; [| discriminate].
    cbn in Hl. apply (Hpre k qa' e' Hk Hq'). congruence.
  - cbn [gather_loop]. rewrite list_lookup_imap, Hq. cbn.
    rewrite Hraise. reflexivity.
Qed.

Lemma first_failure_surfaces_witness :
  fetch_company_qa_responses logged_in answer_both_fail [0; 1]%nat "a.com"
    two_questions (access_token logged_in)
  = Some (Raise (Exn "TimeoutError" "timed out"))
  /\ fetch_company_qa_responses logged_in answer_both_fail [1; 0]%nat "a.com"
       two_questions (access_token logged_in)
     = Some (Raise (Exn "ClientConnectorError" "Cannot connect to host")).
Proof.
  split.
  - apply (first_failure_surfaces logged_in answer_both_fail "a.com"
             two_questions _ [] 0%nat [1%nat] (question "What does it do?"));
      [reflexivity | reflexivity |].
    intros k qa' e' Hk. apply elem_of_nil in Hk. destruct Hk.
  - apply (first_failure_surfaces logged_in answer_both_fail "a.com"
             two_questions _ [] 1%nat [0%nat] (question "Where is it based?"));
      [reflexivity | reflexivity |].
    intros k qa' e' Hk. apply elem_of_nil in Hk. destruct Hk.
Defined.
